(** * lua_sandbox: quota accounting, output buffer, library gate and require

    A shallow embedding of [src/lua_sandbox_private.c] and the properties of
    its allocation interposer, output buffer, [output], [load_library] and
    [require_library].

    Conventions.
    - [unsigned] is 32 bits wide and [size_t] is 64 bits wide (LP64 and
      LLP64); every C operation on them is written with its wrap-around.
    - A pointer is an integer, [NULL] is 0.
    - A C string is a [string]; its terminating zero byte is implicit.
    - A function that can raise a Lua error (the [longjmp] of [luaL_error])
      returns an [outcome]; the state it leaves behind is returned next to
      it, because C side effects are not rolled back by the jump. *)

From stdpp Require Import gmap strings list pretty.
From Stdlib Require Import ZArith Lia Ascii String.

Local Open Scope Z_scope.

(** ** Machine integers *)

Definition UINT_BITS : Z := 32.
Definition SIZE_BITS : Z := 64.
Definition UINT_MODULUS : Z := 2 ^ UINT_BITS.
Definition SIZE_MODULUS : Z := 2 ^ SIZE_BITS.

(** [(unsigned)z] *)
Definition to_unsigned (z : Z) : Z := z mod UINT_MODULUS.
(** [(size_t)z], also the result of any [size_t] arithmetic *)
Definition to_size_t (z : Z) : Z := z mod SIZE_MODULUS.
(** [(int)z] *)
Definition to_int (z : Z) : Z :=
  (z + UINT_MODULUS / 2) mod UINT_MODULUS - UINT_MODULUS / 2.

Definition NULL : Z := 0.

(** ** Quota table: [unsigned usage[LSB_UT_MAX][LSB_US_MAX]] *)

Inductive lsb_usage_type := LSB_UT_MEMORY | LSB_UT_INSTRUCTION | LSB_UT_OUTPUT.
Inductive lsb_usage_stat := LSB_US_LIMIT | LSB_US_CURRENT | LSB_US_MAXIMUM.

#[global] Instance lsb_usage_type_eq_dec : EqDecision lsb_usage_type.
Proof. solve_decision. Defined.

#[global] Instance lsb_usage_stat_eq_dec : EqDecision lsb_usage_stat.
Proof. solve_decision. Defined.

(** One row of the matrix. *)
Record usage_row := {
  us_limit : Z;
  us_current : Z;
  us_maximum : Z
}.

Record usage_table := {
  ut_memory : usage_row;
  ut_instruction : usage_row;
  ut_output : usage_row
}.

Definition row_get (r : usage_row) (s : lsb_usage_stat) : Z :=
  match s with
  | LSB_US_LIMIT => us_limit r
  | LSB_US_CURRENT => us_current r
  | LSB_US_MAXIMUM => us_maximum r
  end.

Definition row_set (r : usage_row) (s : lsb_usage_stat) (v : Z) : usage_row :=
  match s with
  | LSB_US_LIMIT => {| us_limit := v; us_current := us_current r; us_maximum := us_maximum r |}
  | LSB_US_CURRENT => {| us_limit := us_limit r; us_current := v; us_maximum := us_maximum r |}
  | LSB_US_MAXIMUM => {| us_limit := us_limit r; us_current := us_current r; us_maximum := v |}
  end.

Definition usage_row_of (u : usage_table) (t : lsb_usage_type) : usage_row :=
  match t with
  | LSB_UT_MEMORY => ut_memory u
  | LSB_UT_INSTRUCTION => ut_instruction u
  | LSB_UT_OUTPUT => ut_output u
  end.

(** [u[t][s]] *)
Definition usage_get (u : usage_table) (t : lsb_usage_type) (s : lsb_usage_stat) : Z :=
  row_get (usage_row_of u t) s.

(** [u[t][s] = v] *)
Definition usage_set (u : usage_table) (t : lsb_usage_type) (s : lsb_usage_stat) (v : Z)
  : usage_table :=
  match t with
  | LSB_UT_MEMORY =>
      {| ut_memory := row_set (ut_memory u) s v;
         ut_instruction := ut_instruction u; ut_output := ut_output u |}
  | LSB_UT_INSTRUCTION =>
      {| ut_memory := ut_memory u;
         ut_instruction := row_set (ut_instruction u) s v; ut_output := ut_output u |}
  | LSB_UT_OUTPUT =>
      {| ut_memory := ut_memory u; ut_instruction := ut_instruction u;
         ut_output := row_set (ut_output u) s v |}
  end.

(** ** Lua values and the engine state *)

Inductive value :=
| VNil
| VBoolean (b : bool)
| VLightUserdata (p : Z)
| VNumber (bits : Z)      (* the binary64 pattern of the lua_Number *)
| VString (s : string)
| VTable (r : nat)
| VFunction (r : nat)
| VUserdata (r : nat)
| VThread (r : nat).

(** [lua_type] *)
Inductive lua_type_tag :=
| LUA_TNIL | LUA_TBOOLEAN | LUA_TLIGHTUSERDATA | LUA_TNUMBER | LUA_TSTRING
| LUA_TTABLE | LUA_TFUNCTION | LUA_TUSERDATA | LUA_TTHREAD.

Definition type_of (v : value) : lua_type_tag :=
  match v with
  | VNil => LUA_TNIL
  | VBoolean _ => LUA_TBOOLEAN
  | VLightUserdata _ => LUA_TLIGHTUSERDATA
  | VNumber _ => LUA_TNUMBER
  | VString _ => LUA_TSTRING
  | VTable _ => LUA_TTABLE
  | VFunction _ => LUA_TFUNCTION
  | VUserdata _ => LUA_TUSERDATA
  | VThread _ => LUA_TTHREAD
  end.

Definition type_index (t : lua_type_tag) : nat :=
  match t with
  | LUA_TNIL => 0 | LUA_TBOOLEAN => 1 | LUA_TLIGHTUSERDATA => 2
  | LUA_TNUMBER => 3 | LUA_TSTRING => 4 | LUA_TTABLE => 5
  | LUA_TFUNCTION => 6 | LUA_TUSERDATA => 7 | LUA_TTHREAD => 8
  end%nat.

Definition lua_typename (t : lua_type_tag) : string :=
  match t with
  | LUA_TNIL => "nil" | LUA_TBOOLEAN => "boolean" | LUA_TLIGHTUSERDATA => "userdata"
  | LUA_TNUMBER => "number" | LUA_TSTRING => "string" | LUA_TTABLE => "table"
  | LUA_TFUNCTION => "function" | LUA_TUSERDATA => "userdata" | LUA_TTHREAD => "thread"
  end.

Definition is_nil (v : value) : bool :=
  match v with VNil => true | _ => false end.

(** A table: its string-keyed fields (the only keys this file uses) and its
    metatable. A field holding nil is an absent key. *)
Record table := {
  fields : gmap string value;
  metatable : option nat
}.

Definition empty_table : table := {| fields := ∅; metatable := None |}.

(** What the engine did on behalf of a caller; kept so that a statement can
    say that no loader ran and the file system was not read. *)
Inductive engine_event :=
| EvCall (f : string)
| EvDofile (fn : string).

Record lua_State := {
  stack : list value;               (* the running function's frame, bottom first *)
  heap : gmap nat table;            (* every table, by reference *)
  next_ref : nat;                   (* the next unused reference *)
  l_gt : nat;                       (* the table of globals *)
  type_mt : gmap nat nat;           (* per-type metatables of non-table values *)
  events : list engine_event
}.

(** ** The sandbox *)

Inductive lsb_state := LSB_UNKNOWN | LSB_RUNNING | LSB_TERMINATED.

(** [output_data]: [data] is the pointer, [bytes] what it points to. A byte
    that was never written is absent from [bytes]. *)
Record output_data := {
  data : Z;
  bytes : gmap Z ascii;
  pos : Z;
  size : Z;
  maxsize : Z
}.

(** [lua_sandbox]. The field the source calls [output] is [lsb_output] here,
    [output] being the name of the guest-visible function. An empty
    [require_path] pointer is [None]. *)
Record lua_sandbox := {
  lua : option lua_State;
  usage : usage_table;
  state : lsb_state;
  lsb_output : output_data;
  error_message : string;
  require_path : option string
}.

Definition set_usage (lsb : lua_sandbox) (u : usage_table) : lua_sandbox :=
  {| lua := lua lsb; usage := u; state := state lsb; lsb_output := lsb_output lsb;
     error_message := error_message lsb; require_path := require_path lsb |}.

Definition set_output (lsb : lua_sandbox) (o : output_data) : lua_sandbox :=
  {| lua := lua lsb; usage := usage lsb; state := state lsb; lsb_output := o;
     error_message := error_message lsb; require_path := require_path lsb |}.

Definition set_error_message (lsb : lua_sandbox) (m : string) : lua_sandbox :=
  {| lua := lua lsb; usage := usage lsb; state := state lsb; lsb_output := lsb_output lsb;
     error_message := m; require_path := require_path lsb |}.

Definition set_lua (lsb : lua_sandbox) (l : option lua_State) : lua_sandbox :=
  {| lua := l; usage := usage lsb; state := state lsb; lsb_output := lsb_output lsb;
     error_message := error_message lsb; require_path := require_path lsb |}.

Definition set_state (lsb : lua_sandbox) (s : lsb_state) : lua_sandbox :=
  {| lua := lua lsb; usage := usage lsb; state := s; lsb_output := lsb_output lsb;
     error_message := error_message lsb; require_path := require_path lsb |}.

(** ** The C allocator *)

(** The allocator of the C library: what [realloc] and [malloc] answer. *)
Class Libc := {
  realloc : Z -> Z -> Z;
  malloc : Z -> Z
}.

Inductive libc_call :=
| call_free (ptr : Z)
| call_realloc (ptr nsize : Z).

(** ** Allocation interposer *)

(** [memory_manager(ud, ptr, osize, nsize)]: the pointer it returns, the
    calls it made to the C allocator, and the sandbox afterwards. *)
Definition memory_manager `{Libc} (lsb : lua_sandbox) (ptr osize nsize : Z)
  : Z * list libc_call * lua_sandbox :=
  let nptr := NULL in
  if nsize =? 0 then
    let u := usage lsb in
    let cur := to_unsigned (usage_get u LSB_UT_MEMORY LSB_US_CURRENT - to_unsigned osize) in
    (nptr, [call_free ptr], set_usage lsb (usage_set u LSB_UT_MEMORY LSB_US_CURRENT cur))
  else
    let u := usage lsb in
    let new_state_memory :=
      to_unsigned (to_size_t (usage_get u LSB_UT_MEMORY LSB_US_CURRENT + nsize - osize)) in
    if (0 =? usage_get u LSB_UT_MEMORY LSB_US_LIMIT)
       || (new_state_memory <=? usage_get u LSB_UT_MEMORY LSB_US_LIMIT) then
      let nptr := realloc ptr nsize in
      if negb (nptr =? NULL) then
        let u1 := usage_set u LSB_UT_MEMORY LSB_US_CURRENT new_state_memory in
        let u2 :=
          if usage_get u1 LSB_UT_MEMORY LSB_US_MAXIMUM
             <? usage_get u1 LSB_UT_MEMORY LSB_US_CURRENT
          then usage_set u1 LSB_UT_MEMORY LSB_US_MAXIMUM
                 (usage_get u1 LSB_UT_MEMORY LSB_US_CURRENT)
          else u1 in
        (nptr, [call_realloc ptr nsize], set_usage lsb u2)
      else (nptr, [call_realloc ptr nsize], lsb)
    else (nptr, [], lsb).

(** ** Output statistics *)

Definition update_output_stats (lsb : lua_sandbox) : lua_sandbox :=
  let u1 := usage_set (usage lsb) LSB_UT_OUTPUT LSB_US_CURRENT
              (to_unsigned (pos (lsb_output lsb))) in
  let u2 :=
    if usage_get u1 LSB_UT_OUTPUT LSB_US_MAXIMUM <? usage_get u1 LSB_UT_OUTPUT LSB_US_CURRENT
    then usage_set u1 LSB_UT_OUTPUT LSB_US_MAXIMUM (usage_get u1 LSB_UT_OUTPUT LSB_US_CURRENT)
    else u1 in
  set_usage lsb u2.

(** ** Outcomes, platform and collaborators *)

(** How a guest-callable C function ends: it returns, it raises a Lua error
    with a message ([luaL_error] does not return), or it runs into behaviour
    the C standard leaves undefined. *)
Inductive outcome (A : Type) :=
| Ret (a : A)
| Raise (msg : string)
| Undefined.
Arguments Ret {A} a.
Arguments Raise {A} msg.
Arguments Undefined {A}.

(** What the build fixes: the target, and two constants of
    [lua_sandbox_private.h] and [lua_serialize.h]. *)
Class Platform := {
  win32 : bool;                 (* [_WIN32] is defined *)
  LSB_ERROR_SIZE : nat;         (* capacity of [error_message] *)
  sizeof_table_ref : Z
}.

(** The C functions [require_library] hands to [load_library], and the one
    the controller loads the root globals with. *)
Inductive lua_CFunction :=
| luaopen_base | luaopen_string | luaopen_math | luaopen_table | luaopen_os
| luaopen_circular_buffer | luaopen_bloom_filter | luaopen_hyperloglog
| luaopen_lpeg | luaopen_pb | luaopen_cjson_safe.

Definition cfunction_name (f : lua_CFunction) : string :=
  match f with
  | luaopen_base => "luaopen_base" | luaopen_string => "luaopen_string"
  | luaopen_math => "luaopen_math" | luaopen_table => "luaopen_table"
  | luaopen_os => "luaopen_os"
  | luaopen_circular_buffer => "luaopen_circular_buffer"
  | luaopen_bloom_filter => "luaopen_bloom_filter"
  | luaopen_hyperloglog => "luaopen_hyperloglog"
  | luaopen_lpeg => "luaopen_lpeg" | luaopen_pb => "luaopen_pb"
  | luaopen_cjson_safe => "luaopen_cjson_safe"
  end.

(** The scripting engine and the serializers, which are not part of
    [lua_sandbox_private.c]: what they answer when its functions call them.
    - [call_cfunction f L]: running the C function [f] in a fresh frame of
      [L]; the values it returns and the engine state afterwards.
    - [run_chunk fn L]: loading and running the file [fn] ([luaL_loadfile]
      then [lua_pcall] with [LUA_MULTRET]); [Raise m] is a nonzero status
      with [m] left on the stack.
    - [lua_number2str]: the engine's rendering of a number as a string.
    - [engine_blocks L]: the blocks (pointer, size) the engine holds, in the
      order [lua_close] releases them.
    - [serialize_double], [serialize_kvp_as_json], [userdata_type] and
      [output_circular_buffer]: the serializers [output] dispatches to. The
      JSON encoder may write the output buffer and the error slot. *)
Class Engine := {
  call_cfunction : lua_CFunction -> lua_State -> outcome (list value) * lua_State;
  run_chunk : string -> lua_State -> outcome (list value) * lua_State;
  lua_number2str : Z -> string;
  engine_blocks : lua_State -> list (Z * Z);
  serialize_double : output_data -> Z -> Z * output_data;
  serialize_kvp_as_json : lua_sandbox -> value -> Z * output_data * string;
  userdata_type : value -> Z;
  output_circular_buffer : Z -> output_data -> Z * output_data
}.

(** ** Termination *)

(** [lua_close]: the engine gives every block it holds back through the
    interposer it was created with, each as a request with [nsize = 0]. *)
Definition lua_close `{Libc} `{Engine} (L : lua_State) (lsb : lua_sandbox) : lua_sandbox :=
  fold_left (fun s b => (memory_manager s (fst b) (snd b) 0).2) (engine_blocks L) lsb.

Definition sandbox_terminate `{Libc} `{Engine} (lsb : lua_sandbox) : lua_sandbox :=
  let lsb1 :=
    match lua lsb with
    | Some L => set_lua (lua_close L lsb) None
    | None => lsb
    end in
  let lsb2 := set_usage lsb1 (usage_set (usage lsb1) LSB_UT_MEMORY LSB_US_CURRENT 0) in
  set_state lsb2 LSB_TERMINATED.

(** ** Output buffer *)

Definition strlen (s : string) : Z := Z.of_nat (String.length s).

Definition NUL : ascii := Ascii.zero.

(** Storing the characters of [s] at [d[at]], [d[at+1]], ... *)
Fixpoint write_bytes (d : gmap Z ascii) (at_ : Z) (s : string) : gmap Z ascii :=
  match s with
  | EmptyString => d
  | String c r => write_bytes (<[at_ := c]> d) (at_ + 1) r
  end.

(** [memcpy(dst + at, src, n)] where [src] is the C string [s]: the first
    [n] bytes of [s] followed by its terminator. *)
Definition memcpy_str (d : gmap Z ascii) (at_ : Z) (s : string) (n : Z) : gmap Z ascii :=
  write_bytes d at_ (String.substring 0 (Z.to_nat n) (s ++ String NUL EmptyString)).

(** The bytes that survive a move to a block of [n] bytes. *)
Definition keep_below (n : Z) (d : gmap Z ascii) : gmap Z ascii :=
  filter (fun kv => kv.1 < n) d.

(** Iterations granted to a loop of the source. The loops below double a
    [size_t]: after 64 doublings the value is 0 and stays 0, so the loop of
    [realloc_output] that has not stopped by then never stops
    ([grow_newsize_diverges]). *)
Definition LOOP_FUEL : nat := 66.

(** [while (needed >= newsize - pos) newsize *= 2;] ([None] when the loop
    does not end). *)
Fixpoint grow_newsize (fuel : nat) (needed newsize pos_ : Z) : option Z :=
  match fuel with
  | O => None
  | S fuel' =>
      if to_size_t (newsize - pos_) <=? needed
      then grow_newsize fuel' needed (to_size_t (newsize * 2)) pos_
      else Some newsize
  end.

(** [if (maxsize && newsize > maxsize) newsize = maxsize;] *)
Definition clip_newsize (o : output_data) (newsize : Z) : Z :=
  if negb (maxsize o =? 0) && (maxsize o <? newsize) then maxsize o else newsize.

(** [realloc_output]: the status and the buffer afterwards; [None] when it
    does not return. *)
Definition realloc_output `{Libc} (o : output_data) (needed : Z) : option (Z * output_data) :=
  if negb (maxsize o =? 0) && (maxsize o <? to_size_t (needed + pos o)) then Some (1, o)
  else
    match grow_newsize LOOP_FUEL needed (to_size_t (size o * 2)) (pos o) with
    | None => None
    | Some newsize =>
        let newsize := clip_newsize o newsize in
        let ptr := realloc (data o) newsize in
        if ptr =? NULL then Some (1, o)
        else Some (0, {| data := ptr; bytes := keep_below newsize (bytes o);
                         pos := pos o; size := newsize; maxsize := maxsize o |})
    end.

(** [if (output->size - output->pos < needed) { if (realloc_output(...)) return 1; }] *)
Definition ensure_room `{Libc} (o : output_data) (needed : Z) : option (Z * output_data) :=
  if to_size_t (size o - pos o) <? needed then realloc_output o needed
  else Some (0, o).

Definition appends `{Libc} (o : output_data) (str : string) : option (Z * output_data) :=
  let needed := to_size_t (strlen str + 1) in
  match ensure_room o needed with
  | None => None
  | Some (rc, o1) =>
      if negb (rc =? 0) then Some (1, o1)
      else Some (0, {| data := data o1;
                       bytes := memcpy_str (bytes o1) (pos o1) str needed;
                       pos := to_size_t (pos o1 + (needed - 1));
                       size := size o1; maxsize := maxsize o1 |})
  end.

Definition appendc `{Libc} (o : output_data) (ch : ascii) : option (Z * output_data) :=
  let needed := 2 in
  match ensure_room o needed with
  | None => None
  | Some (rc, o1) =>
      if negb (rc =? 0) then Some (1, o1)
      else
        let pos1 := to_size_t (pos o1 + 1) in
        Some (0, {| data := data o1;
                    bytes := <[pos1 := NUL]> (<[pos o1 := ch]> (bytes o1));
                    pos := pos1; size := size o1; maxsize := maxsize o1 |})
  end.

(** ** Formatted errors *)

Inductive fmt_arg :=
| ArgS (s : string)
| ArgD (n : Z)
| ArgC (c : ascii).

Definition percent : ascii := ascii_of_nat 37.

(** [lua_pushvfstring] of Lua 5.1: [%s], [%d] and [%c] consume an argument,
    [%%] stands for one percent sign, any other pair starting with a
    percent sign is copied as it is. [None] where the C code reads an
    argument that was not passed or of another type, reads past the end of
    the format, or meets [%f] or [%p], which this file never uses. *)
Fixpoint lua_pushvfstring (fmt : string) (args : list fmt_arg) : option string :=
  match fmt with
  | EmptyString => Some EmptyString
  | String c rest =>
      if Ascii.eqb c percent then
        match rest with
        | EmptyString => None
        | String d rest' =>
            if Ascii.eqb d "s" then
              match args with
              | ArgS s :: args' => option_map (String.append s) (lua_pushvfstring rest' args')
              | _ => None
              end
            else if Ascii.eqb d "d" then
              match args with
              | ArgD n :: args' =>
                  option_map (String.append (pretty n)) (lua_pushvfstring rest' args')
              | _ => None
              end
            else if Ascii.eqb d "c" then
              match args with
              | ArgC a :: args' => option_map (String a) (lua_pushvfstring rest' args')
              | _ => None
              end
            else if Ascii.eqb d "f" || Ascii.eqb d "p" then None
            else if Ascii.eqb d percent then
              option_map (String percent) (lua_pushvfstring rest' args)
            else option_map (fun r => String percent (String d r)) (lua_pushvfstring rest' args)
        end
      else option_map (String c) (lua_pushvfstring rest args)
  end.

(** [luaL_error(lua, fmt, ...)] called from a C function: [luaL_where]
    adds no position, the message is the formatted string. *)
Definition luaL_error {A : Type} (fmt : string) (args : list fmt_arg) : outcome A :=
  match lua_pushvfstring fmt args with
  | Some m => Raise m
  | None => Undefined
  end.

(** ** Formatted append *)

Definition INT_MAX : Z := UINT_MODULUS / 2 - 1.

(** [vsnprintf(bytes + at, n, "%s", str)]: its result and the bytes
    afterwards. C99 stores at most [n - 1] characters and a terminator and
    returns the length of [str]; the Windows runtime stores at most [n]
    characters, the terminator only if it fits, and returns -1 when [str]
    is longer than [n]. *)
Definition vsnprintf_s `{Platform} (d : gmap Z ascii) (at_ n : Z) (str : string)
  : Z * gmap Z ascii :=
  let len := strlen str in
  if win32 then
    if len <? n then (to_int len, write_bytes d at_ (str ++ String NUL EmptyString))
    else if len =? n then (to_int len, write_bytes d at_ str)
    else (-1, write_bytes d at_ (String.substring 0 (Z.to_nat n) str))
  else
    (if len <=? INT_MAX then len else -1,
     if n =? 0 then d
     else write_bytes d at_
            (String.substring 0 (Z.to_nat (n - 1)) str ++ String NUL EmptyString)).

(** The [do ... while (1)] of [appendf] for the format ["%s"], the only one
    this file passes. [None] when it does not return. *)
Fixpoint appendf_loop `{Libc} `{Platform} (fuel : nat) (o : output_data) (str : string)
  : option (Z * output_data) :=
  match fuel with
  | O => None
  | S fuel' =>
      let remaining := to_int (to_size_t (size o - pos o)) in
      let '(needed, d) := vsnprintf_s (bytes o) (pos o) (to_size_t remaining) str in
      let o := {| data := data o; bytes := d; pos := pos o; size := size o;
                  maxsize := maxsize o |} in
      let needed := if needed =? -1 then remaining else needed in
      if remaining <=? needed then
        if negb (maxsize o =? 0)
           && ((maxsize o <=? size o) || (maxsize o <=? to_size_t (pos o + needed)))
        then Some (1, o)
        else
          match grow_newsize LOOP_FUEL (to_size_t needed) (to_size_t (size o * 2)) (pos o) with
          | None => None
          | Some newsize =>
              let newsize := clip_newsize o newsize in
              let p := malloc newsize in
              if negb (p =? NULL) then
                appendf_loop fuel'
                  {| data := p; bytes := keep_below (pos o) (bytes o); pos := pos o;
                     size := newsize; maxsize := maxsize o |} str
              else Some (1, o)
          end
      else
        Some (0, {| data := data o; bytes := bytes o; pos := to_size_t (pos o + needed);
                    size := size o; maxsize := maxsize o |})
  end.

(** [appendf(output, "%s", str)] *)
Definition appendf `{Libc} `{Platform} (o : output_data) (str : string)
  : option (Z * output_data) :=
  appendf_loop LOOP_FUEL o str.

(** ** The guest-visible [output] *)

Definition json_oom_message : string := "json table serialization out of memory".

(** [snprintf(buf, n, msg)] for a message without conversions: what [buf]
    holds afterwards, [old] being what it held before. *)
Definition snprintf_plain (old : string) (n : nat) (msg : string) : string :=
  match n with
  | O => old
  | S n' => String.substring 0 n' msg
  end.

Definition flag (rc : Z) : Z := if rc =? 0 then 0 else 1.

Definition newline : ascii := ascii_of_nat 10.

(** One turn of the [for] loop of [output]: the [switch] on the type of the
    argument. The result is the value of [result] after the turn. *)
Definition output_arg `{Libc} `{Platform} `{Engine} (lsb : lua_sandbox) (v : value)
  : option (Z * lua_sandbox) :=
  match v with
  | VNumber d =>
      let '(rc, o) := serialize_double (lsb_output lsb) d in
      Some (flag rc, set_output lsb o)
  | VString s =>
      match appendf (lsb_output lsb) s with
      | None => None
      | Some (rc, o) => Some (flag rc, set_output lsb o)
      end
  | VNil =>
      match appends (lsb_output lsb) "nil" with
      | None => None
      | Some (rc, o) => Some (flag rc, set_output lsb o)
      end
  | VBoolean b =>
      match appendf (lsb_output lsb) (if b then "true" else "false") with
      | None => None
      | Some (rc, o) => Some (flag rc, set_output lsb o)
      end
  | VTable _ =>
      let array := malloc (to_size_t (64 * sizeof_table_ref)) in
      if array =? NULL then
        Some (1, set_error_message lsb
                   (snprintf_plain (error_message lsb) LSB_ERROR_SIZE json_oom_message))
      else
        let '(result, o, m) := serialize_kvp_as_json lsb v in
        let lsb1 := set_error_message (set_output lsb o) m in
        if result =? 0 then
          match appendc (lsb_output lsb1) newline with
          | None => None
          | Some (rc, o2) => Some (rc, set_output lsb1 o2)
          end
        else Some (result, lsb1)
  | VUserdata _ =>
      let ud := userdata_type v in
      if negb (ud =? NULL) then
        let '(rc, o) := output_circular_buffer ud (lsb_output lsb) in
        Some (flag rc, set_output lsb o)
      else Some (0, lsb)
  | _ => Some (0, lsb)
  end.

(** [for (int i = 1; result == 0 && i <= n; ++i)] over the arguments left. *)
Fixpoint output_args `{Libc} `{Platform} `{Engine}
  (result : Z) (lsb : lua_sandbox) (args : list value) : option (Z * lua_sandbox) :=
  match args with
  | [] => Some (result, lsb)
  | v :: rest =>
      if result =? 0 then
        match output_arg lsb v with
        | None => None
        | Some (result', lsb') => output_args result' lsb' rest
        end
      else Some (result, lsb)
  end.

(** [lsb->error_message[0] == 0] *)
Definition slot_empty (m : string) : bool :=
  match m with
  | EmptyString => true
  | String c _ => Ascii.eqb c NUL
  end.

(** [output(lua)]: [luserdata] is the light userdata of the first upvalue,
    [lsb] the sandbox it points to, [args] the arguments on the stack.
    [None] when the call does not return. *)
Definition output `{Libc} `{Platform} `{Engine}
  (luserdata : Z) (lsb : lua_sandbox) (args : list value)
  : option (outcome Z * lua_sandbox) :=
  if NULL =? luserdata then Some (luaL_error "output() invalid lightuserdata" [], lsb)
  else
    let n := Z.of_nat (List.length args) in
    if n =? 0 then Some (luaL_error "output() must have at least one argument" [], lsb)
    else
      match output_args 0 lsb args with
      | None => None
      | Some (result, lsb1) =>
          let lsb2 := update_output_stats lsb1 in
          if negb (result =? 0) then
            if slot_empty (error_message lsb2)
            then Some (luaL_error "output_limit exceeded" [], lsb2)
            else Some (luaL_error (error_message lsb2) [], lsb2)
          else Some (Ret 0, lsb2)
      end.

(** ** The Lua C API on the engine state *)

(** A computation on the engine state. The state survives a raised error. *)
Definition Lua (A : Type) : Type := lua_State -> outcome A * lua_State.

Definition retL {A : Type} (a : A) : Lua A := fun L => (Ret a, L).

Definition bindL {A B : Type} (c : Lua A) (k : A -> Lua B) : Lua B :=
  fun L =>
    match c L with
    | (Ret a, L') => k a L'
    | (Raise m, L') => (Raise m, L')
    | (Undefined, L') => (Undefined, L')
    end.

Notation "'let*' x ':=' c1 'in' c2" := (bindL c1 (fun x => c2))
  (at level 10, x name, c1 at level 100, c2 at level 200).
Notation "c1 >> c2" := (bindL c1 (fun _ => c2))
  (at level 100, c2 at level 200, right associativity).

Definition raiseL {A : Type} (fmt : string) (args : list fmt_arg) : Lua A :=
  fun L => (luaL_error fmt args, L).

Definition set_stack (L : lua_State) (s : list value) : lua_State :=
  {| stack := s; heap := heap L; next_ref := next_ref L; l_gt := l_gt L;
     type_mt := type_mt L; events := events L |}.

Definition set_heap (L : lua_State) (h : gmap nat table) : lua_State :=
  {| stack := stack L; heap := h; next_ref := next_ref L; l_gt := l_gt L;
     type_mt := type_mt L; events := events L |}.

Definition set_events (L : lua_State) (e : list engine_event) : lua_State :=
  {| stack := stack L; heap := heap L; next_ref := next_ref L; l_gt := l_gt L;
     type_mt := type_mt L; events := e |}.

Definition LUA_GLOBALSINDEX : Z := -10002.

(** [index2adr]: the value at an acceptable index; [None] where the index
    names no slot of the frame. *)
Definition index2adr (L : lua_State) (idx : Z) : option value :=
  if 0 <? idx then stack L !! Z.to_nat (idx - 1)
  else if idx =? LUA_GLOBALSINDEX then Some (VTable (l_gt L))
  else if (idx <? 0) && (0 <=? Z.of_nat (List.length (stack L)) + idx)
       then stack L !! Z.to_nat (Z.of_nat (List.length (stack L)) + idx)
       else None.

Definition lua_gettop : Lua Z := fun L => (Ret (Z.of_nat (List.length (stack L))), L).

Definition push (v : value) : Lua unit := fun L => (Ret tt, set_stack L (stack L ++ [v])).

Definition lua_pushnil : Lua unit := push VNil.
Definition lua_pushboolean (b : Z) : Lua unit := push (VBoolean (negb (b =? 0))).

Definition lua_pushvalue (idx : Z) : Lua unit :=
  fun L =>
    match index2adr L idx with
    | Some v => push v L
    | None => (Undefined, L)
    end.

Definition lua_pop (n : nat) : Lua unit :=
  fun L => (Ret tt, set_stack L (take (List.length (stack L) - n)%nat (stack L))).

Definition lua_istable (idx : Z) : Lua bool :=
  fun L =>
    match index2adr L idx with
    | Some (VTable _) => (Ret true, L)
    | _ => (Ret false, L)
    end.

Definition lua_isnil (idx : Z) : Lua bool :=
  fun L =>
    match index2adr L idx with
    | Some VNil => (Ret true, L)
    | _ => (Ret false, L)
    end.

(** Reading and writing one field of a table. The tables this file reads
    and writes are made by the engine's loaders and by the controller and
    carry no [__index] or [__newindex] handler: the access is the raw one. *)
Definition rawget (t : table) (k : string) : value := default VNil (fields t !! k).

Definition rawset (t : table) (k : string) (v : value) : table :=
  {| fields := if is_nil v then delete k (fields t) else <[k := v]> (fields t);
     metatable := metatable t |}.

Definition lua_getfield (idx : Z) (k : string) : Lua unit :=
  fun L =>
    match index2adr L idx with
    | Some (VTable r) =>
        match heap L !! r with
        | Some t => push (rawget t k) L
        | None => (Undefined, L)
        end
    | Some v =>
        (luaL_error "attempt to index a %s value" [ArgS (lua_typename (type_of v))], L)
    | None => (Undefined, L)
    end.

(** [lua_setfield(L, idx, k)]: [t[k] = v] for the value [v] on top of the
    stack, which is popped. *)
Definition lua_setfield (idx : Z) (k : string) : Lua unit :=
  fun L =>
    match index2adr L idx, last (stack L) with
    | Some (VTable r), Some v =>
        match heap L !! r with
        | Some t =>
            lua_pop 1 (set_heap L (<[r := rawset t k v]> (heap L)))
        | None => (Undefined, L)
        end
    | Some w, Some _ =>
        (luaL_error "attempt to index a %s value" [ArgS (lua_typename (type_of w))], L)
    | _, _ => (Undefined, L)
    end.

Definition lua_getglobal (k : string) : Lua unit := lua_getfield LUA_GLOBALSINDEX k.
Definition lua_setglobal (k : string) : Lua unit := lua_setfield LUA_GLOBALSINDEX k.

(** [lua_newtable]: a table nobody else refers to. *)
Definition lua_newtable : Lua unit :=
  fun L =>
    let r := next_ref L in
    push (VTable r)
      {| stack := stack L; heap := <[r := empty_table]> (heap L); next_ref := S r;
         l_gt := l_gt L; type_mt := type_mt L; events := events L |}.

(** [lua_setmetatable(L, idx)]: the table (or nil) on top of the stack is
    popped and becomes the metatable of the value at [idx]; a value that is
    not a table gets it through the metatable of its type. *)
Definition lua_setmetatable (idx : Z) : Lua unit :=
  fun L =>
    match index2adr L idx, last (stack L) with
    | Some obj, Some top =>
        match (match top with
               | VNil => Some None
               | VTable m => Some (Some m)
               | _ => None
               end) with
        | None => (Undefined, L)
        | Some mt =>
            match obj with
            | VTable r =>
                match heap L !! r with
                | Some t =>
                    lua_pop 1
                      (set_heap L (<[r := {| fields := fields t; metatable := mt |}]> (heap L)))
                | None => (Undefined, L)
                end
            | _ =>
                let i := type_index (type_of obj) in
                lua_pop 1
                  {| stack := stack L; heap := heap L; next_ref := next_ref L;
                     l_gt := l_gt L;
                     type_mt := match mt with
                                | Some m => <[i := m]> (type_mt L)
                                | None => delete i (type_mt L)
                                end;
                     events := events L |}
            end
        end
    | _, _ => (Undefined, L)
    end.

(** [lua_pushcfunction(lua, f); lua_call(lua, 0, 1);]: [f] runs in a frame
    of its own and its results are adjusted to one value. *)
Definition lua_call_0_1 `{Engine} (f : lua_CFunction) : Lua unit :=
  fun L =>
    let ev := events L ++ [EvCall (cfunction_name f)] in
    match call_cfunction f (set_stack L []) with
    | (Ret results, L') =>
        (Ret tt, set_events (set_stack L' (stack L ++ [hd VNil results])) ev)
    | (Raise m, L') => (Raise m, set_events (set_stack L' (stack L)) ev)
    | (Undefined, L') => (Undefined, set_events (set_stack L' (stack L)) ev)
    end.

(** [luaL_dofile(lua, fn)]: the status; every result of the chunk, or its
    error message, is left on the stack. *)
Definition luaL_dofile `{Engine} (fn : string) : Lua Z :=
  fun L =>
    let ev := events L ++ [EvDofile fn] in
    match run_chunk fn (set_stack L []) with
    | (Ret results, L') => (Ret 0, set_events (set_stack L' (stack L ++ results)) ev)
    | (Raise m, L') => (Ret 1, set_events (set_stack L' (stack L ++ [VString m])) ev)
    | (Undefined, L') => (Undefined, set_events (set_stack L' (stack L)) ev)
    end.

(** [lua_tostring(lua, -1)] of the error message [luaL_dofile] left. *)
Definition lua_tostring_top : Lua string :=
  fun L =>
    match last (stack L) with
    | Some (VString s) => (Ret s, L)
    | _ => (Undefined, L)
    end.

(** [luaL_checkstring(lua, 1)]: a number is converted in place; the name in
    the message is the one the guest calls the function by. *)
Definition luaL_checkstring_1 `{Engine} (fname : string) : Lua string :=
  fun L =>
    match stack L with
    | VString s :: _ => (Ret s, L)
    | VNumber d :: rest =>
        (Ret (lua_number2str d), set_stack L (VString (lua_number2str d) :: rest))
    | v :: _ =>
        (luaL_error "bad argument #%d to '%s' (%s expected, got %s)"
           [ArgD 1; ArgS fname; ArgS "string"; ArgS (lua_typename (type_of v))], L)
    | [] =>
        (luaL_error "bad argument #%d to '%s' (%s expected, got %s)"
           [ArgD 1; ArgS fname; ArgS "string"; ArgS "no value"], L)
    end.

(** ** Library gate *)

Definition disable_none : list string := [].
Definition package_table : string := "package".
Definition loaded_table : string := "loaded".

(** [for (int i = 0; disable[i]; ++i) { lua_pushnil(lua); lua_setfield(lua, idx, disable[i]); }] *)
Fixpoint clear_fields (idx : Z) (disable : list string) : Lua unit :=
  match disable with
  | [] => retL tt
  | d :: rest => lua_pushnil >> lua_setfield idx d >> clear_fields idx rest
  end.

Definition load_library `{Engine} (table_ : string) (f : lua_CFunction) (disable : list string)
  : Lua unit :=
  lua_call_0_1 f >>
  if strlen table_ =? 0 then
    clear_fields LUA_GLOBALSINDEX disable
  else
    clear_fields (-2) disable >>
    lua_newtable >>
    lua_setmetatable (-2).

(** ** Require resolver *)

Definition MAX_PATH : Z := 255.

Definition backslash : ascii := ascii_of_nat 92.

Definition PATH_DELIMITER `{Platform} : ascii :=
  if win32 then backslash else "/"%char.

(** Names of the libraries of Lua 5.1 ([lualib.h]). *)
Definition LUA_STRLIBNAME : string := "string".
Definition LUA_MATHLIBNAME : string := "math".
Definition LUA_TABLIBNAME : string := "table".
Definition LUA_OSLIBNAME : string := "os".

(** Modelled from the spec: the names the three extension headers declare
    ([lsb_circular_buffer_table], [lsb_bloom_filter_table],
    [lsb_hyperloglog_table]); the spec lists the libraries as
    circular_buffer, bloom_filter and hyperloglog. *)
Definition lsb_circular_buffer_table : string := "circular_buffer".
Definition lsb_bloom_filter_table : string := "bloom_filter".
Definition lsb_hyperloglog_table : string := "hyperloglog".

Definition os_disable : list string :=
  ["execute"; "exit"; "remove"; "rename"; "setlocale"; "tmpname"].

Definition cjson_disable : list string :=
  ["encode"; "encode_sparse_array"; "encode_max_depth"; "encode_number_precision";
   "encode_keep_buffer"; "encode_invalid_numbers"].

(** [isalnum] in the C locale. *)
Definition isalnum (c : ascii) : bool :=
  let n := nat_of_ascii c in
  ((48 <=? n) && (n <=? 57) || (65 <=? n) && (n <=? 90) || (97 <=? n) && (n <=? 122))%nat.

Definition underscore : ascii := ascii_of_nat 95.

(** The test of the validation loop on one character:
    [!isalnum(name[i]) && name[i] != '_']. *)
Definition bad_name_char (c : ascii) : bool :=
  negb (isalnum c) && negb (Ascii.eqb c underscore).

(** [while (name[i]) { if (...) luaL_error(...); ++i; }] over the characters
    of [name] from [rest] on. *)
Fixpoint check_name (name rest : string) : Lua unit :=
  match rest with
  | EmptyString => retL tt
  | String c rest' =>
      if bad_name_char c
      then raiseL "invalid module name '%s'" [ArgS name]
      else check_name name rest'
  end.

(** [snprintf(fn, MAX_PATH, "%s%c%s.lua", root, PATH_DELIMITER, name)]: the
    value it returns and the string it leaves in [fn]. *)
Definition snprintf_path `{Platform} (root name : string) : Z * string :=
  let full := (root ++ String PATH_DELIMITER (name ++ ".lua"))%string in
  let len := strlen full in
  let i := if win32 then (if len <=? MAX_PATH then len else -1)
           else (if len <=? INT_MAX then len else -1) in
  (i, String.substring 0 (Z.to_nat (MAX_PATH - 1)) full).

(** The end of the last branch, from [luaL_dofile] on: the file is run and
    what it leaves on top of the stack gets an empty metatable. *)
Definition run_module_file `{Engine} (fn : string) : Lua unit :=
  let* rc := luaL_dofile fn in
  (if negb (rc =? 0)
   then let* m := lua_tostring_top in raiseL "%s" [ArgS m]
   else retL tt) >>
  lua_newtable >>
  lua_setmetatable (-2).

(** The last branch of the [if] chain: a module read from the module root. *)
Definition require_external `{Platform} `{Engine}
  (luserdata : Z) (lsb : lua_sandbox) (name : string) : Lua unit :=
  (if NULL =? luserdata
   then raiseL "require_library() invalid lightuserdata" []
   else retL tt) >>
  match require_path lsb with
  | None => raiseL "require_library() external modules are disabled" []
  | Some root =>
      check_name name name >>
      let '(i, fn) := snprintf_path root name in
      (if (i <? 0) || (MAX_PATH <=? i)
       then raiseL "require_path exceeded %d" [ArgD MAX_PATH]
       else retL tt) >>
      run_module_file fn
  end.

(** The chain of [strcmp] tests of [require_library]: the loader that goes
    with the name. *)
Definition load_by_name `{Platform} `{Engine}
  (luserdata : Z) (lsb : lua_sandbox) (name : string) : Lua unit :=
  if String.eqb name LUA_STRLIBNAME then
    load_library name luaopen_string disable_none
  else if String.eqb name LUA_MATHLIBNAME then
    load_library name luaopen_math disable_none
  else if String.eqb name LUA_TABLIBNAME then
    load_library name luaopen_table disable_none
  else if String.eqb name LUA_OSLIBNAME then
    load_library name luaopen_os os_disable
  else if String.eqb name lsb_circular_buffer_table then
    load_library name luaopen_circular_buffer disable_none
  else if String.eqb name lsb_bloom_filter_table then
    load_library name luaopen_bloom_filter disable_none
  else if String.eqb name lsb_hyperloglog_table then
    load_library name luaopen_hyperloglog disable_none
  else if String.eqb name "lpeg" then
    load_library name luaopen_lpeg disable_none
  else if String.eqb name "pb" then
    load_library name luaopen_pb disable_none
  else if String.eqb name "cjson" then
    load_library name luaopen_cjson_safe cjson_disable >>
    lua_pushvalue (-1) >>
    lua_setglobal name
  else
    require_external luserdata lsb name.

(** [require_library(lua)]: [luserdata] is the light userdata of the first
    upvalue and [lsb] the sandbox it points to. The function returns the
    number of its results; the result is the value on top of the stack. *)
Definition require_library `{Platform} `{Engine} (luserdata : Z) (lsb : lua_sandbox) : Lua Z :=
  let* name := luaL_checkstring_1 "require" in
  lua_getglobal package_table >>
  let* is_t := lua_istable (-1) in
  (if negb is_t then raiseL "%s table is missing" [ArgS package_table] else retL tt) >>
  lua_getfield (-1) loaded_table >>
  let* is_t := lua_istable (-1) in
  (if negb is_t
   then raiseL "%s.%s table is missing" [ArgS package_table; ArgS loaded_table]
   else retL tt) >>
  lua_getfield (-1) name >>
  let* is_n := lua_isnil (-1) in
  if negb is_n then retL 1
  else
    lua_pop 1 >>
    let* pos_ := lua_gettop in
    lua_pushboolean 1 >>
    lua_setfield pos_ name >>
    load_by_name luserdata lsb name >>
    lua_pushvalue (-1) >>
    lua_setfield pos_ name >>
    retL 1.

(** ** Vocabulary of the statements *)

(** [usage[LSB_UT_MEMORY][s]] and [usage[LSB_UT_OUTPUT][s]] of a sandbox. *)
Definition memory_stat (lsb : lua_sandbox) (s : lsb_usage_stat) : Z :=
  usage_get (usage lsb) LSB_UT_MEMORY s.
Definition output_stat (lsb : lua_sandbox) (s : lsb_usage_stat) : Z :=
  usage_get (usage lsb) LSB_UT_OUTPUT s.

(** The sandbox with [CURRENT[MEMORY]] replaced, nothing else touched. *)
Definition with_memory_current (lsb : lua_sandbox) (cur : Z) : lua_sandbox :=
  set_usage lsb (usage_set (usage lsb) LSB_UT_MEMORY LSB_US_CURRENT cur).

(** The sandbox with [CURRENT[MEMORY]] and [MAXIMUM[MEMORY]] replaced. *)
Definition with_memory (lsb : lua_sandbox) (cur mx : Z) : lua_sandbox :=
  set_usage lsb
    (usage_set (usage_set (usage lsb) LSB_UT_MEMORY LSB_US_CURRENT cur)
       LSB_UT_MEMORY LSB_US_MAXIMUM mx).

(** No C object is larger than [PTRDIFF_MAX] bytes. *)
Definition PTRDIFF_MAX : Z := SIZE_MODULUS / 2 - 1.

(** The message holds no percent sign. *)
Fixpoint no_percent (m : string) : bool :=
  match m with
  | EmptyString => true
  | String c r => negb (Ascii.eqb c percent) && no_percent r
  end.

(** *** Quota invariants over a lifetime *)













(** *** The module cache *)

(** [package.loaded] as [require_library] finds it: the table [p] that the
    global [package] names, the table [l] that its field [loaded] names, and
    the contents of [l]. *)
Definition package_loaded (L : lua_State) : option (nat * nat * table) :=
  match heap L !! l_gt L with
  | Some tg =>
      match rawget tg package_table with
      | VTable p =>
          match heap L !! p with
          | Some tp =>
              match rawget tp loaded_table with
              | VTable l =>
                  match heap L !! l with
                  | Some tl => Some (p, l, tl)
                  | None => None
                  end
              | _ => None
              end
          | None => None
          end
      | _ => None
      end
  | None => None
  end.

(** The frame of a call [require(name)] in the engine state [L]. *)
Definition call_frame (L : lua_State) (name : string) : lua_State :=
  set_stack L [VString name].

(** [L] once [require_library] has found that [name] is not cached: the
    name, [package] and [package.loaded] on the stack, and the boolean true
    at [package.loaded[name]]. *)
Definition marked_as_loading (L : lua_State) (name : string) (p l : nat) (tl : table)
  : lua_State :=
  set_heap (set_stack L [VString name; VTable p; VTable l])
    (<[l := rawset tl name (VBoolean true)]> (heap L)).

(** The fields left once the names of [disable] are set to nil. *)
Definition cleared (disable : list string) (f : gmap string value) : gmap string value :=
  foldl (fun acc d => delete d acc) f disable.

(** The names [require_library] has a loader for. *)
Definition builtin_names : list string :=
  [LUA_STRLIBNAME; LUA_MATHLIBNAME; LUA_TABLIBNAME; LUA_OSLIBNAME;
   lsb_circular_buffer_table; lsb_bloom_filter_table; lsb_hyperloglog_table;
   "lpeg"; "pb"; "cjson"].

(** Some character of the string is outside [[A-Za-z0-9_]]. *)
Fixpoint has_bad_char (s : string) : bool :=
  match s with
  | EmptyString => false
  | String c r => bad_name_char c || has_bad_char r
  end.

(** ["<root><separator><name>.lua"] *)
Definition module_path `{Platform} (root name : string) : string :=
  (root ++ String PATH_DELIMITER (name ++ ".lua"))%string.

(** The frame of the caller once the loader [f] has returned the value
    [v], the engine state being [L1]. *)
Definition after_loader (L L1 : lua_State) (f : lua_CFunction) (v : value) : lua_State :=
  set_events (set_stack L1 (stack L ++ [v])) (events L ++ [EvCall (cfunction_name f)]).

(** ** Sample inputs *)

(** An allocator that never fails and places a block of [n] bytes at
    [4096 + n]. *)
Definition generous_libc : Libc :=
  {| realloc := fun _ n => 4096 + n; malloc := fun n => 4096 + n |}.

(** An allocator that is out of memory. *)
Definition exhausted_libc : Libc :=
  {| realloc := fun _ _ => NULL; malloc := fun _ => NULL |}.

Definition posix : Platform :=
  {| win32 := false; LSB_ERROR_SIZE := 256; sizeof_table_ref := 16 |}.

Definition windows : Platform :=
  {| win32 := true; LSB_ERROR_SIZE := 256; sizeof_table_ref := 16 |}.

(** The table a loader of the sample engine makes: the library [os] with
    two of its functions, any other library with one. *)
Definition sample_library (f : lua_CFunction) : gmap string value :=
  match f with
  | luaopen_os => <["execute" := VFunction 1]> (<["clock" := VFunction 2]> ∅)
  | luaopen_base => ∅
  | _ => <["f" := VFunction 3]> ∅
  end.

(** [luaopen_base] answers the table of globals; every other loader makes
    a new table. *)
Definition sample_loader (f : lua_CFunction) (L : lua_State)
  : outcome (list value) * lua_State :=
  match f with
  | luaopen_base => (Ret [VTable (l_gt L)], L)
  | _ =>
      (Ret [VTable (next_ref L)],
       {| stack := stack L;
          heap := <[next_ref L := {| fields := sample_library f; metatable := None |}]> (heap L);
          next_ref := S (next_ref L); l_gt := l_gt L; type_mt := type_mt L;
          events := events L |})
  end.

(** A chunk that returns one new empty table, as a file ending in
    [return {}] does. *)
Definition chunk_returning_table (fn : string) (L : lua_State)
  : outcome (list value) * lua_State :=
  (Ret [VTable (next_ref L)],
   {| stack := stack L; heap := <[next_ref L := empty_table]> (heap L);
      next_ref := S (next_ref L); l_gt := l_gt L; type_mt := type_mt L;
      events := events L |}).

(** An engine whose serializers write nothing and succeed, except the JSON
    encoder, which fails with the message [json_msg]. *)
Definition sample_engine_with
  (chunk : string -> lua_State -> outcome (list value) * lua_State)
  (json_msg : string) : Engine :=
  {| call_cfunction := sample_loader;
     run_chunk := chunk;
     lua_number2str := fun _ => "0";
     engine_blocks := fun _ => [];
     serialize_double := fun o _ => (0, o);
     serialize_kvp_as_json := fun lsb _ => (1, lsb_output lsb, json_msg);
     userdata_type := fun _ => NULL;
     output_circular_buffer := fun _ o => (0, o) |}.

Definition sample_engine : Engine :=
  sample_engine_with chunk_returning_table "table contains an internal or circular reference".

Definition zero_row : usage_row := {| us_limit := 0; us_current := 0; us_maximum := 0 |}.


(** A sandbox with an output limit of 8 bytes and a buffer of 4. *)
Definition small_sandbox : lua_sandbox :=
  {| lua := None;
     usage := {| ut_memory := {| us_limit := 100; us_current := 0; us_maximum := 0 |};
                 ut_instruction := zero_row;
                 ut_output := {| us_limit := 8; us_current := 0; us_maximum := 0 |} |};
     state := LSB_RUNNING;
     lsb_output := {| data := 64; bytes := ∅; pos := 0; size := 4; maxsize := 8 |};
     error_message := EmptyString;
     require_path := Some "/modules" |}.

(** An engine state as the controller leaves it: the globals (table 0)
    name [package] (table 1), whose field [loaded] is the empty table 2. *)
Definition sample_state : lua_State :=
  {| stack := [];
     heap := <[0%nat := {| fields := <["package" := VTable 1]> ∅; metatable := None |}]>
               (<[1%nat := {| fields := <["loaded" := VTable 2]> ∅; metatable := None |}]>
                  (<[2%nat := empty_table]> ∅));
     next_ref := 3;
     l_gt := 0;
     type_mt := ∅;
     events := [] |}.



(** The engine state a call [require(name)] leaves, from the sample state
    and with the sample engine. *)
Definition state_after_require (name : string) : lua_State :=
  (@require_library posix sample_engine 1 small_sandbox (call_frame sample_state name)).2.

(** A module name of 250 letters. *)
Definition long_name : string := string_of_list_ascii (replicate 250 "a"%char).

(** The engine state the loader of [os] leaves. *)
Definition os_loaded : lua_State :=
  (sample_loader luaopen_os (set_stack sample_state [])).2.



(** An engine whose JSON encoder rejects the table and reports a key made
    of two percent signs. *)
Definition percent_key_message : string := "cannot serialize key '%%'".

Definition percent_engine : Engine :=
  sample_engine_with chunk_returning_table percent_key_message.

(** The sandbox the loop of [output] leaves after the arguments [args]. *)
Definition sandbox_after `{Libc} `{Platform} `{Engine}
  (lsb : lua_sandbox) (args : list value) : lua_sandbox :=
  match output_args 0 lsb args with
  | Some (_, lsb') => lsb'
  | None => lsb
  end.


(** * Properties *)

(** ** Machine arithmetic *)

Lemma UINT_MODULUS_pos : 0 < UINT_MODULUS.
Proof. reflexivity. Qed.

Lemma SIZE_MODULUS_pos : 0 < SIZE_MODULUS.
Proof. reflexivity. Qed.


Lemma to_size_t_range z : 0 <= to_size_t z < SIZE_MODULUS.
Proof. unfold to_size_t. apply Z.mod_pos_bound, SIZE_MODULUS_pos. Qed.


Lemma to_size_t_small z : 0 <= z < SIZE_MODULUS -> to_size_t z = z.
Proof. intros Hz. unfold to_size_t. now apply Z.mod_small. Qed.

(** Narrowing a [size_t] to [unsigned] forgets the wider wrap-around. *)
Lemma to_unsigned_to_size_t z : to_unsigned (to_size_t z) = to_unsigned z.
Proof.
  unfold to_unsigned, to_size_t.
  replace SIZE_MODULUS with (UINT_MODULUS * UINT_MODULUS) by reflexivity.
  rewrite Z.rem_mul_r by (pose proof UINT_MODULUS_pos; lia).
  rewrite (Z.mul_comm UINT_MODULUS), Z_mod_plus_full.
  apply Z.mod_mod. pose proof UINT_MODULUS_pos; lia.
Qed.

Lemma to_unsigned_sub_idemp a b : to_unsigned (a - to_unsigned b) = to_unsigned (a - b).
Proof. unfold to_unsigned. apply Zminus_mod_idemp_r. Qed.

(** ** Records *)

Lemma usage_set_same u t s : usage_set u t s (usage_get u t s) = u.
Proof. destruct u as [[] [] []], t, s; reflexivity. Qed.

Lemma usage_get_set u t s v t' s' :
  usage_get (usage_set u t s v) t' s' =
  if decide (t = t' /\ s = s') then v else usage_get u t' s'.
Proof.
  destruct t, s, t', s'; case_decide as Hd; try reflexivity;
    solve [ destruct Hd; discriminate | exfalso; apply Hd; split; reflexivity ].
Qed.

Lemma set_usage_same lsb : set_usage lsb (usage lsb) = lsb.
Proof. destruct lsb; reflexivity. Qed.

Lemma with_memory_current_same lsb :
  with_memory_current lsb (memory_stat lsb LSB_US_CURRENT) = lsb.
Proof. unfold with_memory_current, memory_stat. now rewrite usage_set_same, set_usage_same. Qed.

(** ** Allocation interposer *)

Section Interposer.
Context `{Libc}.

(** The value the interposer compares with the limit: computed in [size_t]
    and narrowed to [unsigned], it is [CURRENT + nsize - osize] modulo
    [2^32]. *)
Lemma projected_wraps lsb osize nsize :
  to_unsigned (to_size_t (memory_stat lsb LSB_US_CURRENT + nsize - osize))
  = to_unsigned (memory_stat lsb LSB_US_CURRENT + nsize - osize).
Proof. apply to_unsigned_to_size_t. Qed.

Lemma memory_manager_free lsb ptr osize :
  memory_manager lsb ptr osize 0
  = (NULL, [call_free ptr],
     with_memory_current lsb (to_unsigned (memory_stat lsb LSB_US_CURRENT - osize))).
Proof.
  unfold memory_manager, with_memory_current, memory_stat. simpl.
  now rewrite to_unsigned_sub_idemp.
Qed.





End Interposer.

(** ** Termination *)

Section Terminate.
Context `{Libc} `{Engine}.

Lemma with_memory_current_twice lsb a b :
  with_memory_current (with_memory_current lsb a) b = with_memory_current lsb b.
Proof. destruct lsb as [l [[] ? ?] ? ? ? ?]. reflexivity. Qed.

(** Releasing blocks only moves [CURRENT[MEMORY]]. *)
Lemma release_blocks_frame (blocks : list (Z * Z)) (lsb : lua_sandbox) :
  exists cur,
    fold_left (fun s b => (memory_manager s (fst b) (snd b) 0).2) blocks lsb
    = with_memory_current lsb cur.
Proof.
  revert lsb. induction blocks as [|[p sz] blocks IH]; intros lsb.
  - exists (memory_stat lsb LSB_US_CURRENT). simpl. now rewrite with_memory_current_same.
  - cbn [fold_left fst snd]. rewrite memory_manager_free. cbn [snd].
    destruct (IH (with_memory_current lsb
                    (to_unsigned (memory_stat lsb LSB_US_CURRENT - sz)))) as [cur Hcur].
    exists cur. rewrite Hcur. apply with_memory_current_twice.
Qed.

Lemma lua_close_frame (L : lua_State) (lsb : lua_sandbox) :
  exists cur, lua_close L lsb = with_memory_current lsb cur.
Proof. apply release_blocks_frame. Qed.

(** [sandbox_terminate], field by field. *)
Lemma sandbox_terminate_eq (lsb : lua_sandbox) :
  sandbox_terminate lsb
  = {| lua := None;
       usage := usage_set (usage lsb) LSB_UT_MEMORY LSB_US_CURRENT 0;
       state := LSB_TERMINATED;
       lsb_output := lsb_output lsb;
       error_message := error_message lsb;
       require_path := require_path lsb |}.
Proof.
  unfold sandbox_terminate. destruct (lua lsb) as [L|] eqn:HL.
  - destruct (lua_close_frame L lsb) as [cur ->].
    destruct lsb as [l [[] ? ?] ? ? ? ?]. reflexivity.
  - destruct lsb as [l u st o m rp]. simpl in HL. subst l. reflexivity.
Qed.

(** C9. From any state, [sandbox_terminate] sets the state to TERMINATED,
    releases the engine handle and resets [CURRENT[MEMORY]] to zero; every
    other counter of the quota table ([MAXIMUM[MEMORY]], [LIMIT[MEMORY]] and
    all instruction and output counters) and every other field of the
    sandbox keeps its value. *)
Theorem sandbox_terminate_frame (lsb : lua_sandbox) :
  state (sandbox_terminate lsb) = LSB_TERMINATED
  /\ lua (sandbox_terminate lsb) = None
  /\ memory_stat (sandbox_terminate lsb) LSB_US_CURRENT = 0
  /\ (forall t s, (t, s) <> (LSB_UT_MEMORY, LSB_US_CURRENT) ->
        usage_get (usage (sandbox_terminate lsb)) t s = usage_get (usage lsb) t s)
  /\ lsb_output (sandbox_terminate lsb) = lsb_output lsb
  /\ error_message (sandbox_terminate lsb) = error_message lsb
  /\ require_path (sandbox_terminate lsb) = require_path lsb.
Proof.
  rewrite sandbox_terminate_eq. cbn [state lua usage lsb_output error_message require_path].
  unfold memory_stat. cbn [usage].
  split; [reflexivity|]. split; [reflexivity|]. split.
  - now rewrite usage_get_set, decide_True.
  - split; [|repeat split].
    intros t s Hts. rewrite usage_get_set, decide_False; [reflexivity|].
    intros [<- <-]. now apply Hts.
Qed.

End Terminate.

(** ** Output buffer *)

Lemma strlen_nonneg s : 0 <= strlen s.
Proof. unfold strlen. lia. Qed.

Lemma strlen_String c s : strlen (String c s) = 1 + strlen s.
Proof. unfold strlen. simpl String.length. lia. Qed.

Lemma substring_whole (s : string) : String.substring 0 (String.length s) s = s.
Proof. induction s as [|c s IH]; simpl; [reflexivity|now rewrite IH]. Qed.

Lemma string_length_snoc (s : string) (c : ascii) :
  String.length (s ++ String c EmptyString) = S (String.length s).
Proof. induction s as [|x s IH]; simpl; [reflexivity|now rewrite IH]. Qed.

(** The last byte [write_bytes] stores is the last character. *)
Lemma write_bytes_last (s : string) (c : ascii) (d : gmap Z ascii) (a : Z) :
  write_bytes d a (s ++ String c EmptyString) !! (a + strlen s) = Some c.
Proof.
  revert d a. induction s as [|x s IH]; intros d a.
  - simpl. replace (a + strlen EmptyString) with a by (unfold strlen; simpl; lia).
    apply lookup_insert_eq.
  - simpl. rewrite strlen_String.
    replace (a + (1 + strlen s)) with (a + 1 + strlen s) by lia. apply IH.
Qed.

(** Copying a whole C string leaves its terminator behind its last
    character. *)
Lemma memcpy_str_terminator (d : gmap Z ascii) (a : Z) (s : string) :
  memcpy_str d a s (strlen s + 1) !! (a + strlen s) = Some NUL.
Proof.
  unfold memcpy_str, strlen.
  replace (Z.to_nat (Z.of_nat (String.length s) + 1))
    with (String.length (s ++ String NUL EmptyString))
    by (rewrite string_length_snoc; lia).
  rewrite substring_whole. apply write_bytes_last.
Qed.

Section Buffer.
Context `{Libc}.

(** [realloc_output] answers 0 or 1, moves [pos] in neither case and leaves
    the buffer as it was when it fails. *)
Lemma realloc_output_result o needed rc o' :
  realloc_output o needed = Some (rc, o') ->
  (rc = 1 /\ o' = o) \/ (rc = 0 /\ pos o' = pos o /\ maxsize o' = maxsize o).
Proof.
  unfold realloc_output. intros Hr.
  destruct (negb (maxsize o =? 0) && (maxsize o <? to_size_t (needed + pos o))).
  - injection Hr as <- <-. now left.
  - destruct (grow_newsize LOOP_FUEL needed (to_size_t (size o * 2)) (pos o)); [|discriminate].
    destruct (realloc (data o) (clip_newsize o z) =? NULL).
    + injection Hr as <- <-. now left.
    + injection Hr as <- <-. right. repeat split.
Qed.

Lemma ensure_room_result o needed rc o' :
  ensure_room o needed = Some (rc, o') ->
  (rc = 1 /\ o' = o) \/ (rc = 0 /\ pos o' = pos o /\ maxsize o' = maxsize o).
Proof.
  unfold ensure_room. destruct (to_size_t (size o - pos o) <? needed).
  - apply realloc_output_result.
  - intros Hr. injection Hr as <- <-. right. repeat split.
Qed.

Lemma appends_fails o s rc o' :
  appends o s = Some (rc, o') -> rc <> 0 -> rc = 1 /\ o' = o.
Proof.
  unfold appends. intros Ha Hrc.
  destruct (ensure_room o (to_size_t (strlen s + 1))) as [[rc1 o1]|] eqn:He; [|discriminate].
  destruct (ensure_room_result _ _ _ _ He) as [[-> ->]|[-> _]]; simpl in Ha.
  - injection Ha as <- <-. now split.
  - injection Ha as <- <-. contradiction.
Qed.

Lemma appends_succeeds o s o' :
  0 <= pos o <= size o -> size o <= PTRDIFF_MAX -> strlen s < PTRDIFF_MAX ->
  appends o s = Some (0, o') ->
  pos o' = pos o + strlen s /\ bytes o' !! pos o' = Some NUL /\ maxsize o' = maxsize o.
Proof.
  intros Hpos Hsize Hlen. unfold appends.
  assert (Hmax : PTRDIFF_MAX = 2 ^ 63 - 1) by reflexivity.
  assert (Hmod : SIZE_MODULUS = 2 ^ 64) by reflexivity.
  pose proof (strlen_nonneg s) as Hs.
  rewrite (to_size_t_small (strlen s + 1)) by lia.
  destruct (ensure_room o (strlen s + 1)) as [[rc1 o1]|] eqn:He; [|discriminate].
  destruct (ensure_room_result _ _ _ _ He) as [[-> ->]|[-> [Hp Hm]]]; simpl; intros Ha.
  - discriminate.
  - injection Ha as <-. simpl.
    replace (strlen s + 1 - 1) with (strlen s) by lia.
    rewrite to_size_t_small by lia. rewrite Hp.
    split; [reflexivity|]. split; [|assumption].
    rewrite <- Hp. apply memcpy_str_terminator.
Qed.

Lemma appendc_fails o c rc o' :
  appendc o c = Some (rc, o') -> rc <> 0 -> rc = 1 /\ o' = o.
Proof.
  unfold appendc. intros Ha Hrc.
  destruct (ensure_room o 2) as [[rc1 o1]|] eqn:He; [|discriminate].
  destruct (ensure_room_result _ _ _ _ He) as [[-> ->]|[-> _]]; simpl in Ha.
  - injection Ha as <- <-. now split.
  - injection Ha as <- <-. contradiction.
Qed.

Lemma appendc_succeeds o c o' :
  0 <= pos o <= size o -> size o <= PTRDIFF_MAX ->
  appendc o c = Some (0, o') ->
  pos o' = pos o + 1 /\ bytes o' !! pos o' = Some NUL /\ maxsize o' = maxsize o
  /\ bytes o' !! pos o = Some c.
Proof.
  intros Hpos Hsize. unfold appendc.
  assert (Hmax : PTRDIFF_MAX = 2 ^ 63 - 1) by reflexivity.
  assert (Hmod : SIZE_MODULUS = 2 ^ 64) by reflexivity.
  destruct (ensure_room o 2) as [[rc1 o1]|] eqn:He; [|discriminate].
  destruct (ensure_room_result _ _ _ _ He) as [[-> ->]|[-> [Hp Hm]]]; simpl; intros Ha.
  - discriminate.
  - injection Ha as <-. simpl. rewrite Hp, to_size_t_small by lia.
    split; [reflexivity|]. split; [apply lookup_insert_eq|]. split; [assumption|].
    rewrite lookup_insert_ne by lia. apply lookup_insert_eq.
Qed.

(** With room left in the buffer both appends succeed. *)
Lemma appends_room o s :
  0 <= pos o <= size o -> size o <= PTRDIFF_MAX ->
  strlen s + 1 <= size o - pos o ->
  exists o', appends o s = Some (0, o').
Proof.
  intros Hpos Hsize Hroom. unfold appends, ensure_room.
  assert (Hmax : PTRDIFF_MAX = 2 ^ 63 - 1) by reflexivity.
  assert (Hmod : SIZE_MODULUS = 2 ^ 64) by reflexivity.
  pose proof (strlen_nonneg s) as Hs.
  rewrite (to_size_t_small (strlen s + 1)), (to_size_t_small (size o - pos o)) by lia.
  destruct (Z.ltb_spec (size o - pos o) (strlen s + 1)); [lia|].
  simpl. eexists. reflexivity.
Qed.

(** C6. For a buffer with [pos <= size] (the buffer and the string being C
    objects, neither larger than [PTRDIFF_MAX]): a successful [appends]
    advances [pos] by exactly the length of the string and leaves a zero
    byte at [data[pos]]; a successful [appendc] advances [pos] by exactly 1
    and leaves a zero byte at [data[pos]]; when either fails, [pos] (and the
    whole buffer) is unchanged. *)
Theorem append_contract (o : output_data) :
  0 <= pos o <= size o -> size o <= PTRDIFF_MAX ->
  (forall s, strlen s < PTRDIFF_MAX ->
     (forall o', appends o s = Some (0, o') ->
        pos o' = pos o + strlen s /\ bytes o' !! pos o' = Some NUL)
     /\ (forall rc o', appends o s = Some (rc, o') -> rc <> 0 -> pos o' = pos o /\ o' = o))
  /\ (forall c,
        (forall o', appendc o c = Some (0, o') ->
           pos o' = pos o + 1 /\ bytes o' !! pos o' = Some NUL)
        /\ (forall rc o', appendc o c = Some (rc, o') -> rc <> 0 -> pos o' = pos o /\ o' = o)).
Proof.
  intros Hpos Hsize. split.
  - intros s Hs. split.
    + intros o' Ha. destruct (appends_succeeds o s o' Hpos Hsize Hs Ha) as (? & ? & _).
      now split.
    + intros rc o' Ha Hrc. destruct (appends_fails _ _ _ _ Ha Hrc) as [_ ->]. now split.
  - intros c. split.
    + intros o' Ha. destruct (appendc_succeeds o c o' Hpos Hsize Ha) as (? & ? & _).
      now split.
    + intros rc o' Ha Hrc. destruct (appendc_fails _ _ _ _ Ha Hrc) as [_ ->]. now split.
Qed.

End Buffer.

(** ** The guest-visible [output] *)

(** A format without a percent sign is raised as it is. *)
Lemma lua_pushvfstring_plain (m : string) (args : list fmt_arg) :
  no_percent m = true -> lua_pushvfstring m args = Some m.
Proof.
  induction m as [|c m IH]; simpl; [reflexivity|].
  destruct (Ascii.eqb c percent); simpl; [discriminate|].
  intros Hm. now rewrite IH.
Qed.

Lemma luaL_error_plain {A : Type} (m : string) (args : list fmt_arg) :
  no_percent m = true -> @luaL_error A m args = Raise m.
Proof. intros Hm. unfold luaL_error. now rewrite lua_pushvfstring_plain. Qed.

Section Output.
Context `{Libc} `{Platform} `{Engine}.



Lemma output_args_one (lsb : lua_sandbox) (v : value) :
  output_args 0 lsb [v] = output_arg lsb v.
Proof. simpl. destruct (output_arg lsb v) as [[r l]|]; reflexivity. Qed.


(** After the loop the statistics are refreshed from [pos], whatever the
    result; a nonzero result then raises the error of [output]. *)
Lemma output_after_loop (luserdata : Z) (lsb : lua_sandbox) (args : list value)
      (result : Z) (lsb1 : lua_sandbox) :
  luserdata <> NULL -> args <> [] ->
  output_args 0 lsb args = Some (result, lsb1) ->
  output luserdata lsb args =
  Some (if result =? 0 then Ret 0
        else if slot_empty (error_message lsb1) then luaL_error "output_limit exceeded" []
        else luaL_error (error_message lsb1) [],
        update_output_stats lsb1).
Proof.
  intros Hud Hargs Hloop. unfold output.
  destruct (Z.eqb_spec NULL luserdata); [congruence|].
  destruct (Z.eqb_spec (Z.of_nat (List.length args)) 0) as [e|_].
  { destruct args; [contradiction|simpl in e; lia]. }
  rewrite Hloop. destruct (result =? 0); [reflexivity|].
  change (error_message (update_output_stats lsb1)) with (error_message lsb1).
  cbn [negb]. destruct (slot_empty (error_message lsb1)); reflexivity.
Qed.

(** When an append fails and the error slot is empty the error is
    "output_limit exceeded"; when the slot holds a message without a
    percent sign the error is that message. In both cases the statistics
    were refreshed before. *)
Lemma output_failure (luserdata : Z) (lsb : lua_sandbox) (args : list value)
      (result : Z) (lsb1 : lua_sandbox) :
  luserdata <> NULL -> args <> [] ->
  output_args 0 lsb args = Some (result, lsb1) -> result <> 0 ->
  (slot_empty (error_message lsb1) = true ->
     output luserdata lsb args
     = Some (Raise "output_limit exceeded", update_output_stats lsb1))
  /\ (slot_empty (error_message lsb1) = false ->
      no_percent (error_message lsb1) = true ->
        output luserdata lsb args
        = Some (Raise (error_message lsb1), update_output_stats lsb1)).
Proof.
  intros Hud Hargs Hloop Hres.
  rewrite (output_after_loop _ _ _ _ _ Hud Hargs Hloop).
  destruct (Z.eqb_spec result 0); [contradiction|]. split.
  - intros ->. reflexivity.
  - intros -> Hm. now rewrite luaL_error_plain.
Qed.

End Output.

(** ** The ceiling of the output buffer *)




(** The value of [newsize] after [k] doublings. *)
Lemma doubled_step (ns : Z) (k : nat) :
  to_size_t (to_size_t (ns * 2 ^ Z.of_nat k) * 2) = to_size_t (ns * 2 ^ Z.of_nat (S k)).
Proof.
  unfold to_size_t. rewrite Zmult_mod_idemp_l. f_equal.
  rewrite Nat2Z.inj_succ, Z.pow_succ_r by lia. ring.
Qed.

Lemma doubled_out (ns : Z) (k : nat) :
  (64 <= k)%nat -> to_size_t (ns * 2 ^ Z.of_nat k) = 0.
Proof.
  intros Hk. unfold to_size_t.
  replace (Z.of_nat k) with (Z.of_nat (k - 64) + 64) by lia.
  rewrite Z.pow_add_r by lia. change (2 ^ 64) with SIZE_MODULUS.
  rewrite Z.mul_assoc. apply Z_mod_mult.
Qed.

(** While the loop has fuel for and has not stopped, its test held. *)
Lemma grow_newsize_none_prefix (needed p ns : Z) (k : nat) : forall fuel j,
  grow_newsize (k + fuel) needed (to_size_t (ns * 2 ^ Z.of_nat j)) p = None ->
  (forall i, (i < k)%nat ->
     to_size_t (to_size_t (ns * 2 ^ Z.of_nat (j + i)) - p) <= needed)
  /\ grow_newsize fuel needed (to_size_t (ns * 2 ^ Z.of_nat (j + k))) p = None.
Proof.
  induction k as [|k IH]; intros fuel j Hnone.
  - split; [intros i Hi; lia|]. now rewrite Nat.add_0_r.
  - cbn [Nat.add grow_newsize] in Hnone.
    destruct (Z.leb_spec (to_size_t (to_size_t (ns * 2 ^ Z.of_nat j) - p)) needed) as [Hle|];
      [|discriminate].
    rewrite doubled_step in Hnone. apply IH in Hnone as [Hpre Hrest]. split.
    + intros [|i] Hi; [now rewrite Nat.add_0_r|].
      replace (j + S i)%nat with (S j + i)%nat by lia. apply Hpre. lia.
    + now replace (j + S k)%nat with (S j + k)%nat by lia.
Qed.

Lemma grow_newsize_all_tests (needed p ns : Z) : forall fuel j,
  (forall i, to_size_t (to_size_t (ns * 2 ^ Z.of_nat i) - p) <= needed) ->
  grow_newsize fuel needed (to_size_t (ns * 2 ^ Z.of_nat j)) p = None.
Proof.
  induction fuel as [|fuel IH]; intros j Hall; [reflexivity|].
  cbn [grow_newsize].
  destruct (Z.leb_spec (to_size_t (to_size_t (ns * 2 ^ Z.of_nat j) - p)) needed) as [_|Hgt].
  - rewrite doubled_step. now apply IH.
  - specialize (Hall j). lia.
Qed.

(** The fuel of the doubling loop is enough: a run that [LOOP_FUEL] does
    not end is not ended by any fuel. *)
Lemma grow_newsize_diverges (needed ns p : Z) :
  0 <= ns < SIZE_MODULUS ->
  grow_newsize LOOP_FUEL needed ns p = None ->
  forall fuel, grow_newsize fuel needed ns p = None.
Proof.
  intros Hns Hnone fuel.
  assert (Hstart : ns = to_size_t (ns * 2 ^ Z.of_nat 0))
    by (rewrite Z.mul_1_r; symmetry; now apply to_size_t_small).
  rewrite Hstart in Hnone |- *.
  change LOOP_FUEL with (65 + 1)%nat in Hnone.
  apply grow_newsize_none_prefix in Hnone as [Hpre _].
  apply grow_newsize_all_tests. intros i.
  destruct (Nat.lt_ge_cases i 65) as [Hi|Hi]; [exact (Hpre i Hi)|].
  rewrite (doubled_out ns i) by lia. rewrite <- (doubled_out ns 64) by lia.
  apply (Hpre 64%nat). lia.
Qed.

Section Ceiling.
Context `{Libc}.

Lemma INT_MAX_eq : INT_MAX = 2 ^ 31 - 1.
Proof. reflexivity. Qed.





End Ceiling.


Section FormattedAppend.
Context `{Libc} `{Platform}.





End FormattedAppend.

(** ** Quota invariants over a lifetime *)

Section Lifetime.
Context `{Libc} `{Platform} `{Engine}.


















End Lifetime.

(** *** The invariants on sample lifetimes *)






(** *** The buffer and [output] on sample inputs *)

(** Appending "nil" to the empty buffer of four bytes. *)
Lemma append_contract_witness :
  exists o',
    @appends generous_libc (lsb_output small_sandbox) "nil" = Some (0, o')
    /\ pos o' = pos (lsb_output small_sandbox) + strlen "nil"
    /\ bytes o' !! pos o' = Some NUL.
Proof.
  eexists. split; [vm_compute; reflexivity|].
  assert (Hpos : 0 <= pos (lsb_output small_sandbox) <= size (lsb_output small_sandbox))
    by (cbn; lia).
  assert (Hsize : size (lsb_output small_sandbox) <= PTRDIFF_MAX) by discriminate.
  assert (Hlen : strlen "nil" < PTRDIFF_MAX) by reflexivity.
  apply (proj1 (proj1 (@append_contract generous_libc (lsb_output small_sandbox) Hpos Hsize)
                  "nil" Hlen)).
  vm_compute. reflexivity.
Defined.


(** C4, at a failing input. The JSON encoder fails on the table and leaves
    the message [cannot serialize key '%%'] in the error slot. [output]
    refreshes the statistics and then passes the slot to [luaL_error] as a
    format: the error that reaches the guest reads
    [cannot serialize key '%'], which is not the message in the slot. *)
Theorem output_raises_slot_as_format :
  @output generous_libc posix percent_engine 1 small_sandbox [VTable 0]
  = Some (Raise "cannot serialize key '%'",
          update_output_stats (set_error_message small_sandbox percent_key_message))
  /\ error_message (update_output_stats (set_error_message small_sandbox percent_key_message))
     = "cannot serialize key '%%'"
  /\ "cannot serialize key '%'" <> percent_key_message.
Proof.
  split; [vm_compute; reflexivity|]. split; [reflexivity|]. discriminate.
Qed.

(** ** The Lua C API *)

Lemma bindL_ret {A B : Type} (c : Lua A) (k : A -> Lua B) L a L1 :
  c L = (Ret a, L1) -> bindL c k L = k a L1.
Proof. intros E. unfold bindL. now rewrite E. Qed.

Lemma bindL_raise {A B : Type} (c : Lua A) (k : A -> Lua B) L m L1 :
  c L = (Raise m, L1) -> bindL c k L = (Raise m, L1).
Proof. intros E. unfold bindL. now rewrite E. Qed.



Lemma index2adr_under L s a b : stack L = s ++ [a; b] -> index2adr L (-2) = Some a.
Proof.
  intros Hs. unfold index2adr. cbn [Z.ltb Z.compare Z.eqb LUA_GLOBALSINDEX andb].
  rewrite Hs, length_app. cbn [List.length].
  destruct (Z.leb_spec 0 (Z.of_nat (List.length s + 2) + -2)); [|lia].
  replace (Z.to_nat (Z.of_nat (List.length s + 2) + -2)) with (List.length s) by lia.
  now rewrite list_lookup_middle.
Qed.

Lemma index2adr_globals L : index2adr L LUA_GLOBALSINDEX = Some (VTable (l_gt L)).
Proof. reflexivity. Qed.

Lemma lua_getfield_table L idx k r t :
  index2adr L idx = Some (VTable r) -> heap L !! r = Some t ->
  lua_getfield idx k L = (Ret tt, set_stack L (stack L ++ [rawget t k])).
Proof. intros Hi Hh. unfold lua_getfield. now rewrite Hi, Hh. Qed.

Lemma lua_istable_at L idx v :
  index2adr L idx = Some v ->
  lua_istable idx L = (Ret (match v with VTable _ => true | _ => false end), L).
Proof. intros Hi. unfold lua_istable. rewrite Hi. now destruct v. Qed.

Lemma lua_isnil_at L idx v :
  index2adr L idx = Some v -> lua_isnil idx L = (Ret (is_nil v), L).
Proof. intros Hi. unfold lua_isnil. rewrite Hi. now destruct v. Qed.

Lemma lua_setfield_table L idx k r t v :
  index2adr L idx = Some (VTable r) -> last (stack L) = Some v -> heap L !! r = Some t ->
  lua_setfield idx k L = lua_pop 1 (set_heap L (<[r := rawset t k v]> (heap L))).
Proof. intros Hi Hl Hh. unfold lua_setfield. now rewrite Hi, Hl, Hh. Qed.

Lemma take_snoc {A : Type} (s : list A) (v : A) :
  take (List.length (s ++ [v]) - 1) (s ++ [v]) = s.
Proof.
  rewrite length_app. cbn [List.length].
  replace (List.length s + 1 - 1)%nat with (List.length s) by lia.
  apply take_app_length.
Qed.

Lemma set_heap_same L : set_heap L (heap L) = L.
Proof. now destruct L. Qed.

Lemma set_stack_same L : set_stack L (stack L) = L.
Proof. now destruct L. Qed.

(** Setting a field of the table [r] to nil from a frame [L]: the stack is
    as before, the table has lost the field. *)
Lemma clear_one L idx d r t :
  index2adr (set_stack L (stack L ++ [VNil])) idx = Some (VTable r) ->
  heap L !! r = Some t ->
  (lua_pushnil >> lua_setfield idx d) L
  = (Ret tt, set_heap L (<[r := rawset t d VNil]> (heap L))).
Proof.
  intros Hi Hh. erewrite bindL_ret by reflexivity.
  erewrite lua_setfield_table; [|exact Hi|apply last_snoc|exact Hh].
  unfold lua_pop. cbn [stack set_heap set_stack heap next_ref l_gt type_mt events].
  rewrite take_snoc. destruct L; reflexivity.
Qed.

Lemma rawset_nil_fields t d :
  rawset t d VNil = {| fields := delete d (fields t); metatable := metatable t |}.
Proof. reflexivity. Qed.

Lemma clear_fields_table disable : forall L idx r t,
  (forall h, index2adr (set_stack (set_heap L h) (stack L ++ [VNil])) idx = Some (VTable r)) ->
  heap L !! r = Some t ->
  clear_fields idx disable L
  = (Ret tt,
     set_heap L (<[r := {| fields := cleared disable (fields t); metatable := metatable t |}]>
                   (heap L))).
Proof.
  induction disable as [|d rest IH]; intros L idx r t Hi Hh.
  - cbn [clear_fields cleared foldl]. unfold retL.
    replace {| fields := fields t; metatable := metatable t |} with t by now destruct t.
    now rewrite insert_id, set_heap_same.
  - cbn [clear_fields].
    change (lua_pushnil >> lua_setfield idx d >> clear_fields idx rest)
      with (bindL lua_pushnil (fun _ => bindL (lua_setfield idx d) (fun _ => clear_fields idx rest))).
    assert (Hone : (lua_pushnil >> lua_setfield idx d) L
                   = (Ret tt, set_heap L (<[r := rawset t d VNil]> (heap L)))).
    { apply clear_one; [|exact Hh]. specialize (Hi (heap L)). now rewrite set_heap_same in Hi. }
    unfold bindL in Hone |- *. cbn [lua_pushnil push] in Hone |- *.
    destruct (lua_setfield idx d (set_stack L (stack L ++ [VNil]))) as [[[]|m|] L1];
      try discriminate.
    injection Hone as ->.
    rewrite (IH _ idx r (rawset t d VNil)).
    + cbn [heap set_heap]. rewrite insert_insert_eq. reflexivity.
    + intros h. apply Hi.
    + cbn [heap set_heap]. apply lookup_insert_eq.
Qed.

(** ** Library gate *)

Lemma cleared_lookup_in disable : forall (f : gmap string value) d,
  d ∈ disable -> cleared disable f !! d = None.
Proof.
  induction disable as [|x rest IH]; intros f d Hd.
  - inversion Hd.
  - cbn [cleared foldl]. fold (cleared rest (delete x f)).
    destruct (decide (d ∈ rest)) as [Hin|Hnin]; [now apply IH|].
    apply elem_of_cons in Hd as [->|Hd]; [|contradiction].
    clear IH. revert f. induction rest as [|y rest IH2]; intros f.
    + apply lookup_delete_eq.
    + cbn [cleared foldl]. fold (cleared rest (delete y (delete x f))).
      rewrite delete_delete. apply IH2. intros Hin. apply Hnin. now right.
Qed.

Lemma cleared_lookup_notin disable : forall (f : gmap string value) k,
  k ∉ disable -> cleared disable f !! k = f !! k.
Proof.
  induction disable as [|x rest IH]; intros f k Hk; [reflexivity|].
  cbn [cleared foldl]. fold (cleared rest (delete x f)).
  rewrite IH by (intros Hin; apply Hk; now right).
  apply lookup_delete_ne. intros ->. apply Hk. now left.
Qed.

Lemma strlen_zero s : (strlen s =? 0) = true <-> s = EmptyString.
Proof.
  destruct s as [|c s]; [now split|]. rewrite strlen_String.
  pose proof (strlen_nonneg s). split; [|discriminate].
  intros Hz. apply Z.eqb_eq in Hz. lia.
Qed.

Section Gate.
Context `{Engine}.

Lemma lua_call_0_1_ret L f results L1 :
  call_cfunction f (set_stack L []) = (Ret results, L1) ->
  lua_call_0_1 f L = (Ret tt, after_loader L L1 f (hd VNil results)).
Proof. intros Hc. unfold lua_call_0_1. now rewrite Hc. Qed.

Lemma load_library_root (f : lua_CFunction) (disable : list string)
      (L L1 : lua_State) (results : list value) (tg : table) :
  call_cfunction f (set_stack L []) = (Ret results, L1) ->
  heap L1 !! l_gt L1 = Some tg ->
  load_library EmptyString f disable L
  = (Ret tt,
     set_heap (after_loader L L1 f (hd VNil results))
       (<[l_gt L1 := {| fields := cleared disable (fields tg); metatable := metatable tg |}]>
          (heap L1))).
Proof.
  intros Hc Hg. unfold load_library.
  erewrite bindL_ret by (apply lua_call_0_1_ret; exact Hc).
  change (strlen EmptyString =? 0) with true. cbv iota.
  erewrite clear_fields_table; [reflexivity| |exact Hg].
  intros h. reflexivity.
Qed.

Lemma load_library_named (table_ : string) (f : lua_CFunction) (disable : list string)
      (L L1 : lua_State) (results : list value) (r : nat) (t : table) :
  table_ <> EmptyString ->
  call_cfunction f (set_stack L []) = (Ret results, L1) ->
  hd VNil results = VTable r ->
  heap L1 !! r = Some t ->
  heap L1 !! next_ref L1 = None ->
  load_library table_ f disable L
  = (Ret tt,
     {| stack := stack L ++ [VTable r];
        heap := <[r := {| fields := cleared disable (fields t);
                          metatable := Some (next_ref L1) |}]>
                  (<[next_ref L1 := empty_table]>
                     (<[r := {| fields := cleared disable (fields t);
                                metatable := metatable t |}]> (heap L1)));
        next_ref := S (next_ref L1);
        l_gt := l_gt L1;
        type_mt := type_mt L1;
        events := events L ++ [EvCall (cfunction_name f)] |}).
Proof.
  intros Hname Hc Hv Ht Hfresh. unfold load_library.
  erewrite bindL_ret by (apply lua_call_0_1_ret; exact Hc).
  destruct (strlen table_ =? 0) eqn:Hz; [apply strlen_zero in Hz; contradiction|].
  rewrite Hv.
  erewrite bindL_ret.
  2:{ apply (clear_fields_table disable _ (-2) r t); [|exact Ht].
      intros h. apply (index2adr_under _ (stack L) (VTable r) VNil).
      cbn [stack set_stack set_heap after_loader set_events]. now rewrite <- app_assoc. }
  assert (Hne : next_ref L1 <> r) by (intros Heq; rewrite Heq in Hfresh; congruence).
  unfold lua_newtable, lua_setmetatable, bindL, push.
  cbn [stack heap next_ref l_gt type_mt events set_heap set_stack set_events after_loader].
  erewrite (index2adr_under _ (stack L) (VTable r) (VTable (next_ref L1)));
    [|cbn [stack]; now rewrite <- app_assoc].
  rewrite last_snoc.
  rewrite lookup_insert_ne by exact Hne. rewrite lookup_insert_eq.
  unfold lua_pop. cbn [stack heap next_ref l_gt type_mt events set_heap set_stack].
  rewrite take_snoc. reflexivity.
Qed.

End Gate.

(** ** Require resolver *)

Lemma package_loaded_inv L p l tl :
  package_loaded L = Some (p, l, tl) ->
  exists tg tp,
    heap L !! l_gt L = Some tg /\ rawget tg package_table = VTable p
    /\ heap L !! p = Some tp /\ rawget tp loaded_table = VTable l
    /\ heap L !! l = Some tl.
Proof.
  unfold package_loaded.
  destruct (heap L !! l_gt L) as [tg|]; [|discriminate].
  destruct (rawget tg package_table) as [| | | | |p'| | |] eqn:Hp; try discriminate.
  destruct (heap L !! p') as [tp|] eqn:Htp; [|discriminate].
  destruct (rawget tp loaded_table) as [| | | | |l'| | |] eqn:Hl; try discriminate.
  destruct (heap L !! l') as [tl'|] eqn:Htl; [|discriminate].
  intros E. injection E as <- <- <-. now exists tg, tp.
Qed.

Ltac norm :=
  cbn [set_stack set_heap set_events stack heap next_ref l_gt type_mt events app
       retL negb is_nil lua_pop lua_gettop lua_pushboolean lua_pushnil push
       List.length Nat.sub take firstn call_frame].

Ltac step lem := erewrite bindL_ret; [|lem]; norm.

Section Resolver.
Context `{Platform} `{Engine}.


Lemma require_library_miss ud lsb L name p l tl :
  package_loaded L = Some (p, l, tl) ->
  rawget tl name = VNil ->
  require_library ud lsb (call_frame L name)
  = (load_by_name ud lsb name >> lua_pushvalue (-1) >> lua_setfield 3 name >> retL 1)
      (marked_as_loading L name p l tl).
Proof.
  intros Hpl Hv. destruct (package_loaded_inv _ _ _ _ Hpl) as (tg & tp & Hg & Hp & Htp & Hl & Htl).
  unfold require_library, call_frame.
  step ltac:(reflexivity).
  step ltac:(eapply lua_getfield_table; [reflexivity|exact Hg]). rewrite Hp.
  step ltac:(eapply lua_istable_at; reflexivity).
  step ltac:(reflexivity).
  step ltac:(eapply lua_getfield_table; [reflexivity|exact Htp]). rewrite Hl.
  step ltac:(eapply lua_istable_at; reflexivity).
  step ltac:(reflexivity).
  step ltac:(eapply lua_getfield_table; [reflexivity|exact Htl]). rewrite Hv.
  step ltac:(eapply lua_isnil_at; reflexivity).
  step ltac:(reflexivity).
  step ltac:(reflexivity).
  step ltac:(reflexivity).
  step ltac:(eapply lua_setfield_table; [reflexivity|reflexivity|exact Htl]).
  reflexivity.
Qed.

(** *** Names *)



Lemma check_name_good name rest L :
  has_bad_char rest = false -> check_name name rest L = (Ret tt, L).
Proof.
  induction rest as [|c rest IH]; cbn [has_bad_char check_name]; [reflexivity|].
  destruct (bad_name_char c); cbn [orb]; [discriminate|exact IH].
Qed.


Lemma load_by_name_external ud lsb name :
  name ∉ builtin_names -> load_by_name ud lsb name = require_external ud lsb name.
Proof.
  intros Hn. unfold load_by_name.
  repeat match goal with
         | |- context [String.eqb name ?x] =>
             destruct (String.eqb_spec name x) as [->|_];
             [exfalso; apply Hn; unfold builtin_names; set_solver|]
         end.
  reflexivity.
Qed.

(** *** The path *)

Lemma substring_short (s : string) (n : nat) :
  (String.length s <= n)%nat -> String.substring 0 n s = s.
Proof.
  revert n. induction s as [|c s IH]; intros n Hn.
  - now destruct n.
  - destruct n as [|n]; [simpl in Hn; lia|]. simpl. rewrite IH; [reflexivity|simpl in Hn; lia].
Qed.

Lemma snprintf_path_long root name :
  MAX_PATH <= strlen (module_path root name) ->
  let i := (snprintf_path root name).1 in (i <? 0) || (MAX_PATH <=? i) = true.
Proof.
  intros Hlen. unfold snprintf_path. fold (module_path root name). cbn [fst].
  destruct win32.
  - destruct (Z.leb_spec (strlen (module_path root name)) MAX_PATH).
    + apply orb_true_iff. right. apply Z.leb_le. lia.
    + reflexivity.
  - destruct (Z.leb_spec (strlen (module_path root name)) INT_MAX).
    + apply orb_true_iff. right. apply Z.leb_le. lia.
    + reflexivity.
Qed.

Lemma snprintf_path_short root name :
  strlen (module_path root name) < MAX_PATH ->
  snprintf_path root name = (strlen (module_path root name), module_path root name).
Proof.
  intros Hlen. unfold snprintf_path. fold (module_path root name).
  assert (HM : MAX_PATH = 255) by reflexivity. pose proof INT_MAX_eq as HI.
  f_equal.
  - destruct win32.
    + destruct (Z.leb_spec (strlen (module_path root name)) MAX_PATH); [reflexivity|lia].
    + destruct (Z.leb_spec (strlen (module_path root name)) INT_MAX); [reflexivity|lia].
  - apply substring_short. unfold strlen in Hlen. lia.
Qed.

Lemma require_external_long ud lsb name root L :
  ud <> NULL -> require_path lsb = Some root -> has_bad_char name = false ->
  MAX_PATH <= strlen (module_path root name) ->
  require_external ud lsb name L = (Raise "require_path exceeded 255", L).
Proof.
  intros Hud Hroot Hname Hlen. unfold require_external.
  destruct (Z.eqb_spec NULL ud) as [|_]; [congruence|].
  erewrite bindL_ret by reflexivity. rewrite Hroot.
  erewrite bindL_ret by (apply check_name_good; exact Hname).
  pose proof (snprintf_path_long root name Hlen) as Hi. cbv zeta in Hi.
  destruct (snprintf_path root name) as [i fn]. cbn [fst] in Hi. rewrite Hi.
  reflexivity.
Qed.

Lemma require_external_short ud lsb name root L :
  ud <> NULL -> require_path lsb = Some root -> has_bad_char name = false ->
  strlen (module_path root name) < MAX_PATH ->
  require_external ud lsb name L = run_module_file (module_path root name) L.
Proof.
  intros Hud Hroot Hname Hlen. unfold require_external.
  destruct (Z.eqb_spec NULL ud) as [|_]; [congruence|].
  erewrite bindL_ret by reflexivity. rewrite Hroot.
  erewrite bindL_ret by (apply check_name_good; exact Hname).
  rewrite (snprintf_path_short root name Hlen).
  assert (HM : MAX_PATH = 255) by reflexivity. pose proof (strlen_nonneg (module_path root name)).
  destruct (Z.ltb_spec (strlen (module_path root name)) 0); [lia|].
  destruct (Z.leb_spec MAX_PATH (strlen (module_path root name))); [lia|].
  cbn [orb]. erewrite bindL_ret by reflexivity. reflexivity.
Qed.


End Resolver.

(** ** What a returning call leaves on the stack *)



Lemma lua_pop_1_stack L :
  stack (lua_pop 1 L).2 = take (List.length (stack L) - 1) (stack L).
Proof. reflexivity. Qed.





Section Frames.
Context `{Platform} `{Engine}.








End Frames.

(** ** The gate and the resolver: statements *)




Section Gate8.
Context `{Engine}.

(** C8. Once the loader has returned: for the library name "" the gate
    sets each name of the denylist to nil in the table of globals, and
    nothing else changes: no table is created, no table other than the
    globals is written and the globals keep the metatable they had. For any
    other name, with the library's table [r] left on the stack by the
    loader, the gate sets each name of the denylist to nil in that table
    and gives it as metatable a table [m] that did not exist before and is
    empty. *)
Theorem load_library_gate (f : lua_CFunction) (disable : list string)
        (L L1 : lua_State) (results : list value) :
  call_cfunction f (set_stack L []) = (Ret results, L1) ->
  (forall tg, heap L1 !! l_gt L1 = Some tg ->
     exists L2,
       load_library EmptyString f disable L = (Ret tt, L2)
       /\ l_gt L2 = l_gt L1
       /\ heap L2 !! l_gt L2
          = Some {| fields := cleared disable (fields tg); metatable := metatable tg |}
       /\ (forall d, d ∈ disable -> cleared disable (fields tg) !! d = None)
       /\ (forall k, k <> l_gt L1 -> heap L2 !! k = heap L1 !! k)
       /\ next_ref L2 = next_ref L1
       /\ type_mt L2 = type_mt L1)
  /\ (forall table_ r t,
        table_ <> EmptyString ->
        hd VNil results = VTable r -> heap L1 !! r = Some t ->
        heap L1 !! next_ref L1 = None ->
        exists L2 m,
          load_library table_ f disable L = (Ret tt, L2)
          /\ last (stack L2) = Some (VTable r)
          /\ heap L2 !! r
             = Some {| fields := cleared disable (fields t); metatable := Some m |}
          /\ (forall d, d ∈ disable -> cleared disable (fields t) !! d = None)
          /\ heap L1 !! m = None
          /\ heap L2 !! m = Some empty_table).
Proof.
  intros Hcall. split.
  - intros tg Hg. eexists. split; [exact (load_library_root f disable L L1 results tg Hcall Hg)|].
    cbn [heap l_gt next_ref type_mt set_heap after_loader set_events set_stack].
    split; [reflexivity|]. split; [apply lookup_insert_eq|].
    split; [intros d Hd; now apply cleared_lookup_in|].
    split; [|split; reflexivity].
    intros k Hk. now apply lookup_insert_ne.
  - intros table_ r t Hname Hv Ht Hfresh. eexists. exists (next_ref L1).
    split; [exact (load_library_named table_ f disable L L1 results r t Hname Hcall Hv Ht Hfresh)|].
    cbn [heap stack].
    assert (Hne : next_ref L1 <> r) by (intros Heq; rewrite Heq in Hfresh; congruence).
    split; [apply last_snoc|]. split; [apply lookup_insert_eq|].
    split; [intros d Hd; now apply cleared_lookup_in|].
    split; [exact Hfresh|].
    rewrite lookup_insert_ne by congruence. apply lookup_insert_eq.
Qed.

End Gate8.

Section Claims.
Context `{Platform} `{Engine}.


(** C7. When [require] resolves an external module (the name is valid, is
    not cached and is none of the built-in ones, a module root is
    configured), the path is [<root><separator><name>.lua], the separator
    being a backslash on Windows and a slash elsewhere; a path shorter than
    255 characters is the file that is run, and a path of 255 characters or
    more makes [require] fail with [require_path exceeded 255]. *)
Theorem require_path_ceiling (ud : Z) (lsb : lua_sandbox) (L : lua_State) (name root : string)
        (p l : nat) (tl : table) :
  ud <> NULL -> require_path lsb = Some root ->
  name ∉ builtin_names -> has_bad_char name = false ->
  package_loaded L = Some (p, l, tl) -> rawget tl name = VNil ->
  module_path root name
  = (root ++ String (if win32 then backslash else "/"%char) (name ++ ".lua"))%string
  /\ (strlen (module_path root name) < MAX_PATH ->
        require_library ud lsb (call_frame L name)
        = (run_module_file (module_path root name) >>
           lua_pushvalue (-1) >> lua_setfield 3 name >> retL 1)
            (marked_as_loading L name p l tl))
  /\ (MAX_PATH <= strlen (module_path root name) ->
        require_library ud lsb (call_frame L name)
        = (Raise "require_path exceeded 255", marked_as_loading L name p l tl)).
Proof.
  intros Hud Hroot Hext Hname Hpl Hmiss. split; [reflexivity|].
  rewrite (require_library_miss ud lsb L name p l tl Hpl Hmiss).
  rewrite (load_by_name_external _ _ _ Hext). split; intros Hlen.
  - unfold bindL at 1 3.
    now rewrite (require_external_short ud lsb name root _ Hud Hroot Hname Hlen).
  - erewrite bindL_raise; [reflexivity|]. now apply require_external_long with (root := root).
Qed.



End Claims.

(** *** The gate and the resolver on sample inputs *)

Lemma sample_package_loaded : package_loaded sample_state = Some (1%nat, 2%nat, empty_table).
Proof. vm_compute. reflexivity. Qed.





Lemma long_name_external : long_name ∉ builtin_names.
Proof.
  intros Hin. unfold builtin_names in Hin.
  repeat (apply elem_of_cons in Hin as [Heq|Hin];
          [apply (f_equal String.length) in Heq; vm_compute in Heq; discriminate|]).
  inversion Hin.
Qed.

Lemma require_path_ceiling_witness :
  @require_library posix sample_engine 1 small_sandbox (call_frame sample_state long_name)
  = (Raise "require_path exceeded 255", marked_as_loading sample_state long_name 1 2 empty_table).
Proof.
  assert (Hud : 1 <> NULL) by discriminate.
  assert (Hroot : require_path small_sandbox = Some "/modules") by reflexivity.
  assert (Hname : has_bad_char long_name = false) by (vm_compute; reflexivity).
  assert (Hmiss : rawget empty_table long_name = VNil) by reflexivity.
  assert (Hlen : MAX_PATH <= strlen (@module_path posix "/modules" long_name))
    by (vm_compute; discriminate).
  exact (proj2 (proj2 (@require_path_ceiling posix sample_engine 1 small_sandbox sample_state
                         long_name "/modules" 1%nat 2%nat empty_table
                         Hud Hroot long_name_external Hname sample_package_loaded Hmiss))
           Hlen).
Defined.

Lemma load_library_gate_witness :
  exists L2 m,
    @load_library sample_engine "os" luaopen_os os_disable sample_state = (Ret tt, L2)
    /\ last (stack L2) = Some (VTable 3)
    /\ heap L2 !! 3%nat
       = Some {| fields := cleared os_disable (sample_library luaopen_os);
                 metatable := Some m |}
    /\ (forall d, d ∈ os_disable -> cleared os_disable (sample_library luaopen_os) !! d = None)
    /\ heap os_loaded !! m = None
    /\ heap L2 !! m = Some empty_table.
Proof.
  assert (Hcall : @call_cfunction sample_engine luaopen_os (set_stack sample_state [])
                  = (Ret [VTable 3], os_loaded)) by reflexivity.
  assert (Hname : "os" <> EmptyString) by discriminate.
  assert (Hv : hd VNil [VTable 3] = VTable 3) by reflexivity.
  assert (Ht : heap os_loaded !! 3%nat
               = Some {| fields := sample_library luaopen_os; metatable := None |})
    by (vm_compute; reflexivity).
  assert (Hfresh : heap os_loaded !! next_ref os_loaded = None) by (vm_compute; reflexivity).
  exact (proj2 (@load_library_gate sample_engine luaopen_os os_disable sample_state os_loaded
                  [VTable 3] Hcall)
           "os" 3%nat _ Hname Hv Ht Hfresh).
Defined.

(** *** The interposer and the controller on sample inputs *)

(** Under a limit of 100 bytes a request for 101 bytes is refused, one for
    100 bytes is granted, and a failing allocator changes nothing. *)
Example memory_manager_refuses :
  @memory_manager generous_libc small_sandbox NULL 0 101 = (NULL, [], small_sandbox).
Proof. reflexivity. Qed.

Example memory_manager_grants :
  @memory_manager generous_libc small_sandbox NULL 0 100
  = (4196, [call_realloc NULL 100], with_memory small_sandbox 100 100).
Proof. reflexivity. Qed.

Example memory_manager_out_of_memory :
  @memory_manager exhausted_libc small_sandbox NULL 0 100
  = (NULL, [call_realloc NULL 100], small_sandbox).
Proof. reflexivity. Qed.

Example memory_manager_releases :
  @memory_manager generous_libc (with_memory small_sandbox 100 100) 4196 100 0
  = (NULL, [call_free 4196], with_memory small_sandbox 0 100).
Proof. reflexivity. Qed.


(** A string longer than the output limit: the error is the generic one
    and the statistics say that nothing was written. *)
Example output_over_limit :
  @output generous_libc posix sample_engine 1 small_sandbox [VString "overflowing"]
  = Some (Raise "output_limit exceeded",
          update_output_stats
            (@sandbox_after generous_libc posix sample_engine small_sandbox
               [VString "overflowing"])).
Proof. vm_compute. reflexivity. Qed.

(** The JSON encoder of the sample engine fails with a message of its own,
    which is the error [output] raises. *)
Example output_encoder_message :
  fst <$> @output generous_libc posix sample_engine 1 small_sandbox [VTable 0]
  = Some (Raise "table contains an internal or circular reference").
Proof. vm_compute. reflexivity. Qed.

Example terminate_resets_memory :
  usage (@sandbox_terminate generous_libc sample_engine (with_memory small_sandbox 60 100))
  = usage (with_memory small_sandbox 0 100).
Proof. reflexivity. Qed.

(** On Windows the separator is a backslash, and the ceiling is the same. *)
Example module_path_windows :
  @module_path windows "mods" "stats" = ("mods" ++ String backslash "stats.lua")%string.
Proof. reflexivity. Qed.

Example module_path_posix : @module_path posix "/modules" "stats" = "/modules/stats.lua".
Proof. reflexivity. Qed.

Example require_path_ceiling_windows :
  (@require_library windows sample_engine 1 small_sandbox
     (call_frame sample_state long_name)).1
  = Raise "require_path exceeded 255".
Proof. vm_compute. reflexivity. Qed.

(** A module of the module root is run from its file and cached. *)
Example require_external_module :
  (@require_library posix sample_engine 1 small_sandbox (call_frame sample_state "stats")).1
  = Ret 1
  /\ events (state_after_require "stats") = [EvDofile "/modules/stats.lua"]
  /\ (@require_library posix sample_engine 1 small_sandbox
        (call_frame (state_after_require "stats") "stats"))
     = (Ret 1, set_stack (state_after_require "stats")
                 [VString "stats"; VTable 1; VTable 2; VTable 3]).
Proof. vm_compute. repeat split. Qed.

(** The second call of [output] of the ordinary lifetime fails after its
    first argument: the error is raised with 7 bytes accounted for. *)
Example output_fails_part_way :
  let lsb3 :=
    update_output_stats
      (@sandbox_after generous_libc posix sample_engine small_sandbox [VNil]) in
  (fun r => (r.1, output_stat r.2 LSB_US_CURRENT, output_stat r.2 LSB_US_MAXIMUM,
             pos (lsb_output r.2)))
    <$> @output generous_libc posix sample_engine 1 lsb3 [VBoolean true; VString "overflow"]
  = Some (Raise "output_limit exceeded", 7, 7, 7).
Proof. vm_compute. reflexivity. Qed.
